(** * The redirect engine: dispatch, reload and redirect policy

    A shallow embedding of the Go package [redirect] (the file that
    declares [engine], [DefaultEngine], [ServeHTTP], [Reload], [Redirect],
    [IsRegularUser] and [ProcessRegularUserUrl]).

    Go strings are byte sequences; they are [string] here (a list of
    [ascii], one per byte).  The rule table [map[string]*template.Template]
    is a [gmap string Template].  The engine is modelled sequentially: the
    [sync.RWMutex] makes each read of [eng.rules] and the one assignment to
    it in [Reload] a step of its own, and it is those steps that the model
    has.

    The functions of Go's standard library that the engine calls are
    modelled on bytes ([strings.Trim], [Split], [Contains], [TrimSpace],
    [http.Error], the header map), except two that are parameters
    ([Library]): [strings.ToLower] outside ASCII, and the URL parsing and
    resolution at the start of [http.Redirect]. *)

From Stdlib Require Import Ascii String List NArith Lia Bool.
From stdpp Require Import base option gmap strings list fin_maps.

Open Scope string_scope.

(** ** The functions of Go's [strings] package that the engine calls *)
Module GoStrings.

(** [strings.HasPrefix(s, prefix)]. *)
Fixpoint HasPrefix (s pre : string) : bool :=
  match pre, s with
  | EmptyString, _ => true
  | String _ _, EmptyString => false
  | String p pre', String c s' => if Ascii.eqb c p then HasPrefix s' pre' else false
  end.

(** [strings.Contains(s, substr)]: [substr] occurs somewhere in [s]. *)
Fixpoint Contains (s substr : string) : bool :=
  HasPrefix s substr ||
  match s with
  | EmptyString => false
  | String _ s' => Contains s' substr
  end.

(** Every byte of the string is below 0x80 ([utf8.RuneSelf]). *)
Fixpoint is_ascii (s : string) : bool :=
  match s with
  | EmptyString => true
  | String c s' => (N_of_ascii c <? 128)%N && is_ascii s'
  end.

(** 'A'..'Z' go to 'a'..'z', every other byte stays. *)
Definition lower_byte (c : ascii) : ascii :=
  let n := N_of_ascii c in
  if ((65 <=? n) && (n <=? 90))%N then ascii_of_N (n + 32) else c.

(** What [strings.ToLower(s)] returns for a string of ASCII bytes (the
    first branch of the library function). *)
Fixpoint ToLowerASCII (s : string) : string :=
  match s with
  | EmptyString => EmptyString
  | String c s' => String (lower_byte c) (ToLowerASCII s')
  end.

(** Membership of a byte in a cutset. *)
Fixpoint in_cutset (c : ascii) (cutset : string) : bool :=
  match cutset with
  | EmptyString => false
  | String d cutset' => Ascii.eqb c d || in_cutset c cutset'
  end.

(** Leading bytes satisfying [f] removed ([strings.TrimLeftFunc]). *)
Fixpoint trim_left (f : ascii -> bool) (s : string) : string :=
  match s with
  | EmptyString => EmptyString
  | String c s' => if f c then trim_left f s' else s
  end.

(** Trailing bytes satisfying [f] removed ([strings.TrimRightFunc]). *)
Fixpoint trim_right (f : ascii -> bool) (s : string) : string :=
  match s with
  | EmptyString => EmptyString
  | String c s' =>
      match trim_right f s' with
      | EmptyString => if f c then EmptyString else String c EmptyString
      | t => String c t
      end
  end.

(** [strings.Trim(s, cutset)]: all leading and trailing bytes contained
    in [cutset] removed. *)
Definition Trim (s cutset : string) : string :=
  trim_right (fun c => in_cutset c cutset) (trim_left (fun c => in_cutset c cutset) s).

(** The white space of [unicode.IsSpace], by its UTF-8 encoding.  One
    byte: tab, line feed, vertical tab, form feed, carriage return and
    space. *)
Definition is_space (c : ascii) : bool :=
  let n := N_of_ascii c in
  ((9 <=? n) && (n <=? 13) || (n =? 32))%N.

(** Two bytes: U+0085 (C2 85) and U+00A0 (C2 A0). *)
Definition is_space2 (a b : ascii) : bool :=
  ((N_of_ascii a =? 194) && ((N_of_ascii b =? 133) || (N_of_ascii b =? 160)))%N.

(** Three bytes: U+1680 (E1 9A 80), U+2000..U+200A (E2 80 80..8A), U+2028,
    U+2029 (E2 80 A8, A9), U+202F (E2 80 AF), U+205F (E2 81 9F) and U+3000
    (E3 80 80). *)
Definition is_space3 (a b c : ascii) : bool :=
  let x := N_of_ascii a in
  let y := N_of_ascii b in
  let z := N_of_ascii c in
  ((x =? 225) && (y =? 154) && (z =? 128)
   || (x =? 226) && (y =? 128)
      && ((128 <=? z) && (z <=? 138) || (z =? 168) || (z =? 169) || (z =? 175))
   || (x =? 226) && (y =? 129) && (z =? 159)
   || (x =? 227) && (y =? 128) && (z =? 128))%N.

(** The string begins with a white-space rune. *)
Definition starts_with_space (s : string) : bool :=
  match s with
  | String a s1 =>
      is_space a ||
      match s1 with
      | String b s2 =>
          is_space2 a b ||
          match s2 with
          | String c _ => is_space3 a b c
          | EmptyString => false
          end
      | EmptyString => false
      end
  | EmptyString => false
  end.

(** The white-space runes at the front removed ([strings.TrimLeftFunc]
    with [unicode.IsSpace]; a byte sequence that is no white-space rune,
    valid UTF-8 or not, ends the trimming). *)
Fixpoint trim_left_space (s : string) : string :=
  match s with
  | String a s1 =>
      if is_space a then trim_left_space s1
      else
        match s1 with
        | String b s2 =>
            if is_space2 a b then trim_left_space s2
            else
              match s2 with
              | String c s3 => if is_space3 a b c then trim_left_space s3 else s
              | EmptyString => s
              end
        | EmptyString => s
        end
  | EmptyString => EmptyString
  end.

(** The bytes of a string in the opposite order. *)
Fixpoint rev_append (s acc : string) : string :=
  match s with
  | EmptyString => acc
  | String c s' => rev_append s' (String c acc)
  end.

Definition reverse (s : string) : string := rev_append s EmptyString.

(** The string, given with its last byte first, ends with a white-space
    rune. *)
Definition ends_with_space_rev (r : string) : bool :=
  match r with
  | String c r1 =>
      is_space c ||
      match r1 with
      | String b r2 =>
          is_space2 b c ||
          match r2 with
          | String a _ => is_space3 a b c
          | EmptyString => false
          end
      | EmptyString => false
      end
  | EmptyString => false
  end.

(** The white-space runes at the end removed ([strings.TrimRightFunc] with
    [unicode.IsSpace]), on the string given with its last byte first. *)
Fixpoint trim_right_space_rev (r : string) : string :=
  match r with
  | String c r1 =>
      if is_space c then trim_right_space_rev r1
      else
        match r1 with
        | String b r2 =>
            if is_space2 b c then trim_right_space_rev r2
            else
              match r2 with
              | String a r3 => if is_space3 a b c then trim_right_space_rev r3 else r
              | EmptyString => r
              end
        | EmptyString => r
        end
  | EmptyString => EmptyString
  end.

(** [strings.TrimSpace(s)]: the leading and the trailing white-space runes
    removed. *)
Definition TrimSpace (s : string) : string :=
  reverse (trim_right_space_rev (reverse (trim_left_space s))).

(** The loop of [strings.Split(s, sep)] for a separator that is not empty.
    [skip] counts the bytes of an occurrence of [sep] still to be passed
    over; [cur] is the field being collected. *)
Fixpoint split_loop (sep : string) (skip : nat) (cur : string) (s : string)
  : list string :=
  match s with
  | EmptyString => [cur]
  | String c s' =>
      match skip with
      | S k => split_loop sep k cur s'
      | O =>
          if HasPrefix s sep
          then cur :: split_loop sep (String.length sep - 1) EmptyString s'
          else split_loop sep 0 (cur ++ String c EmptyString) s'
      end
  end.

(** [strings.Split(s, sep)].  With an empty separator Go splits after
    each UTF-8 sequence; the model splits after each byte. *)
Definition Split (s sep : string) : list string :=
  match sep with
  | EmptyString => map (fun c => String c EmptyString) (list_ascii_of_string s)
  | _ => split_loop sep 0 EmptyString s
  end.

End GoStrings.

(** ** Library functions taken as they are

    Two library functions are beyond a byte-level model: [strings.ToLower],
    which folds every rune by the Unicode case tables, and the first part
    of [http.Redirect], which parses the URL with [net/url] and, when the
    URL has neither scheme nor host, makes it absolute against the request
    path and cleans it.  They are parameters, together with what the
    library fixes about them: on a string of ASCII bytes [ToLower] is
    [ToLowerASCII], and a URL that begins with a scheme is left alone
    (whether [url.Parse] accepts it, with that scheme, or fails). *)

(** The URL begins with a scheme as [net/url] reads it: a letter, then
    letters, digits, [+], [-] or [.], then a colon. *)
Definition is_letter (c : ascii) : bool :=
  let n := N_of_ascii c in
  ((65 <=? n) && (n <=? 90) || (97 <=? n) && (n <=? 122))%N.

Definition is_scheme_byte (c : ascii) : bool :=
  let n := N_of_ascii c in
  (is_letter c || (48 <=? n) && (n <=? 57) || (n =? 43) || (n =? 45) || (n =? 46))%N.

Fixpoint scheme_ends (s : string) : bool :=
  match s with
  | EmptyString => false
  | String c s' =>
      if Ascii.eqb c ":" then true
      else if is_scheme_byte c then scheme_ends s' else false
  end.

Definition has_scheme (url : string) : bool :=
  match url with
  | EmptyString => false
  | String c url' => is_letter c && scheme_ends url'
  end.

Class Library := {
  ToLower : string -> string;
  ToLower_ascii :
    forall s, GoStrings.is_ascii s = true -> ToLower s = GoStrings.ToLowerASCII s;
  redirectURL : string -> string -> string;
  redirectURL_absolute :
    forall oldpath url, has_scheme url = true -> redirectURL oldpath url = url
}.

(** ** The parts of [net/http] that the engine touches *)
Module NetHTTP.

(** [http.Header]: a map from canonical header names to their values. *)
Definition header_Get (h : gmap string (list string)) (key : string) : string :=
  match h !! key with
  | Some (v :: _) => v
  | _ => EmptyString
  end.

Definition header_Add (h : gmap string (list string)) (key value : string)
  : gmap string (list string) :=
  <[key := (default [] (h !! key) ++ [value])%list]> h.

Definition header_Set (h : gmap string (list string)) (key value : string)
  : gmap string (list string) :=
  <[key := [value]]> h.

Definition header_Del (h : gmap string (list string)) (key : string)
  : gmap string (list string) :=
  delete key h.

(** The fields of [*http.Request] the engine reads.  [URLPath] is
    [rq.URL.Path]; templates read the request too. *)
Record Request := {
  Method : string;
  URLPath : string;
  RawQuery : string;
  ReqHeader : gmap string (list string)
}.

(** [rq.UserAgent()]. *)
Definition UserAgent (rq : Request) : string :=
  header_Get (ReqHeader rq) "User-Agent".

(** [http.ResponseWriter]: the header map, the status once written, and
    the bytes written to the body. *)
Record ResponseWriter := {
  header : gmap string (list string);
  status : option nat;
  body : string
}.

Definition newResponseWriter : ResponseWriter :=
  {| header := ∅; status := None; body := EmptyString |}.

Definition with_header (w : ResponseWriter) (h : gmap string (list string))
  : ResponseWriter :=
  {| header := h; status := status w; body := body w |}.

Definition StatusOK : nat := 200.
Definition StatusMovedPermanently : nat := 301.
Definition StatusNotFound : nat := 404.
Definition StatusInternalServerError : nat := 500.

(** [http.StatusText], for the codes the engine sends; the library
    answers the empty string for an unknown code. *)
Definition StatusText (code : nat) : string :=
  if Nat.eqb code 200 then "OK"
  else if Nat.eqb code 301 then "Moved Permanently"
  else if Nat.eqb code 404 then "Not Found"
  else if Nat.eqb code 500 then "Internal Server Error"
  else EmptyString.

(** [w.WriteHeader(code)]: the first call fixes the status, later calls
    are ignored. *)
Definition WriteHeader (w : ResponseWriter) (code : nat) : ResponseWriter :=
  match status w with
  | Some _ => w
  | None => {| header := header w; status := Some code; body := body w |}
  end.

(** [w.Write(data)]: writes the status 200 first when none was written. *)
Definition Write (w : ResponseWriter) (data : string) : ResponseWriter :=
  let w' := WriteHeader w StatusOK in
  {| header := header w'; status := status w'; body := body w' ++ data |}.

Definition newline : string := String "010"%char EmptyString.
Definition dquote : string := String "034"%char EmptyString.

(** [http.Error(w, error, code)]. *)
Definition Error (w : ResponseWriter) (error : string) (code : nat) : ResponseWriter :=
  let h := header_Del (header w) "Content-Length" in
  let h := header_Set h "Content-Type" "text/plain; charset=utf-8" in
  let h := header_Set h "X-Content-Type-Options" "nosniff" in
  Write (WriteHeader (with_header w h) code) (error ++ newline).

(** [http.NotFound(w, r)]. *)
Definition NotFound (w : ResponseWriter) (r : Request) : ResponseWriter :=
  Error w "404 page not found" StatusNotFound.

(** The library's [htmlEscape]. *)
Fixpoint htmlEscape (s : string) : string :=
  match s with
  | EmptyString => EmptyString
  | String c s' =>
      (if Ascii.eqb c "&" then "&amp;"
       else if Ascii.eqb c "<" then "&lt;"
       else if Ascii.eqb c ">" then "&gt;"
       else if Ascii.eqb c "034" then "&#34;"
       else if Ascii.eqb c "'" then "&#39;"
       else String c EmptyString) ++ htmlEscape s'
  end.

(** A hexadecimal digit, in lower case. *)
Definition hex_digit (n : N) : ascii :=
  if (n <? 10)%N then ascii_of_N (48 + n) else ascii_of_N (87 + n).

(** The library's [hexEscapeNonASCII]: each byte from 0x80 up becomes [%]
    and its two hexadecimal digits. *)
Fixpoint hexEscapeNonASCII (s : string) : string :=
  match s with
  | EmptyString => EmptyString
  | String c s' =>
      let n := N_of_ascii c in
      if (n <? 128)%N then String c (hexEscapeNonASCII s')
      else String "%" (String (hex_digit (n / 16))
                         (String (hex_digit (n mod 16)) (hexEscapeNonASCII s')))
  end.

(** [http.Redirect(w, r, url, code)]: the URL made absolute against
    [r.URL.Path] when it has neither scheme nor host ([redirectURL]), the
    [Location] header with that URL, percent-escaped, a content type for
    GET and HEAD when none was set, the status, and the short HTML body
    for GET. *)
Definition Redirect `{Library} (w : ResponseWriter) (r : Request) (url : string)
    (code : nat) : ResponseWriter :=
  let url := redirectURL (URLPath r) url in
  let h := header w in
  let hadCT := bool_decide (is_Some (h !! "Content-Type")) in
  let h := header_Set h "Location" (hexEscapeNonASCII url) in
  let getOrHead := String.eqb (Method r) "GET" || String.eqb (Method r) "HEAD" in
  let h := if negb hadCT && getOrHead
           then header_Set h "Content-Type" "text/html; charset=utf-8" else h in
  let w := WriteHeader (with_header w h) code in
  if negb hadCT && String.eqb (Method r) "GET"
  then Write w ("<a href=" ++ dquote ++ htmlEscape url ++ dquote ++ ">"
                ++ StatusText code ++ "</a>." ++ newline ++ newline)
  else w.

End NetHTTP.
Import NetHTTP.

(** ** Results and errors

    A Go [(value, error)] pair; an [error] is modelled by its message. *)
Inductive result (A : Type) : Type :=
| Ok (a : A)
| Err (msg : string).
Arguments Ok {A} a.
Arguments Err {A} msg.

(** ** The template library and the collaborators

    [text/template] is the expression language of the rules:
    [template.New(...).Parse] compiles a rule and [Execute] renders it
    against the request.  The engine does not depend on what the language
    is, and neither does the model. *)
Class TemplateLib := {
  Template : Type;
  Parse : string -> result Template;
  Execute : Template -> Request -> result string
}.

(** A rule as the storage hands it out: the service key [URL] and the
    source of its template. *)
Record Rule := {
  URL : string;
  LocationTemplate : string
}.

(** The interfaces [Storage] and [StatWriter] are declared outside the
    engine's file; the engine uses [Storage.All] and [StatWriter.Touch]. *)
Class Collaborators := {
  Storage : Type;
  All : Storage -> result (list Rule);
  StatWriter : Type
}.

(** What a request makes the engine call besides the response writer, in
    program order: the stat sink, the renderer, the logger. *)
Inductive Call : Type :=
| CallTouch (service : string)
| CallExecute (service : string)
| CallLog (line : string).

Definition is_touch (c : Call) : bool :=
  match c with
  | CallTouch _ => true
  | _ => false
  end.

(** How many times [Touch] was called. *)
Definition touches (calls : list Call) : nat :=
  length (List.filter is_touch calls).

Section Engine.

Context `{GL : Library} `{TL : TemplateLib} `{CO : Collaborators}.

(** [type engine struct]; the [lock] guards [rules] and has no content of
    its own. *)
Record engine := {
  storage : Storage;
  stat : StatWriter;
  rules : gmap string Template;
  defaultUrl : string;
  urlParameter : string;
  robots : list string
}.

Definition with_rules (eng : engine) (swap : gmap string Template) : engine :=
  {| storage := storage eng; stat := stat eng; rules := swap;
     defaultUrl := defaultUrl eng; urlParameter := urlParameter eng;
     robots := robots eng |}.

(** [DefaultEngine]: [None] for a nil collaborator is the panic.  The
    rule table starts as the nil map. *)
Definition DefaultEngine (storage : option Storage) (sink : option StatWriter)
    (defaultUrl urlParameter robots : string) : option engine :=
  match storage, sink with
  | Some st, Some sk =>
      Some {| storage := st; stat := sk; rules := ∅;
              defaultUrl := defaultUrl; urlParameter := urlParameter;
              robots := GoStrings.Split robots "|" |}
  | _, _ => None
  end.

(** The loop of [IsRegularUser] over [eng.robots]. *)
Fixpoint no_robot_in (userAgent : string) (robots : list string) : bool :=
  match robots with
  | [] => true
  | robot :: rest =>
      if negb (String.eqb robot EmptyString) && GoStrings.Contains userAgent robot
      then false
      else no_robot_in userAgent rest
  end.

(** [engine.IsRegularUser]. *)
Definition IsRegularUser (eng : engine) (rq : Request) : bool :=
  let userAgent := ToLower (UserAgent rq) in
  no_robot_in userAgent (robots eng).

(** [engine.ProcessRegularUserUrl]. *)
Definition ProcessRegularUserUrl (eng : engine) (url : string) : string :=
  if String.eqb (urlParameter eng) EmptyString then url
  else if GoStrings.Contains url "?"
       then url ++ "&" ++ urlParameter eng
       else url ++ "?" ++ urlParameter eng.

(** [engine.Redirect]. *)
Definition Redirect (eng : engine) (url : string) (wr : ResponseWriter) (rq : Request)
  : ResponseWriter :=
  let url := if IsRegularUser eng rq then ProcessRegularUserUrl eng url else url in
  let wr := with_header wr (header_Add (header wr) "Content-Length" "0") in
  NetHTTP.Redirect wr rq url StatusMovedPermanently.

(** [engine.ServeHTTP]: the response written and the calls made.  (The
    deferred [rq.Body.Close()] has no part in the response.) *)
Definition ServeHTTP (eng : engine) (wr : ResponseWriter) (rq : Request)
  : ResponseWriter * list Call :=
  let service := GoStrings.Trim (URLPath rq) "/" in
  match rules eng !! service with
  | None =>
      if negb (String.eqb (defaultUrl eng) EmptyString)
      then (Redirect eng (defaultUrl eng) wr rq, [])
      else (NotFound wr rq, [])
  | Some tpl =>
      let calls := [CallTouch service; CallExecute service] in
      match Execute tpl rq with
      | Err err =>
          (Error wr err StatusInternalServerError,
           calls ++ [CallLog ("engine: failed execute template for service "
                              ++ service ++ " : " ++ err)])%list
      | Ok urlData =>
          let url := GoStrings.TrimSpace urlData in
          if String.eqb (Method rq) "HEAD"
          then (WriteHeader (with_header wr (header_Add (header wr) "Location" url))
                            StatusOK, calls)
          else (Redirect eng url wr rq, calls)
      end
  end.

(** The loop of [Reload]: each rule is parsed and stored in [swap] under
    its key; the first parse error ends the loop. *)
Fixpoint compile_rules (rs : list Rule) (swap : gmap string Template)
  : result (gmap string Template) :=
  match rs with
  | [] => Ok swap
  | rule :: rest =>
      match Parse (LocationTemplate rule) with
      | Err err => Err ("engine: parse rule for url " ++ URL rule ++ ": " ++ err)
      | Ok t => compile_rules rest (<[URL rule := t]> swap)
      end
  end.

(** [engine.Reload]: the engine afterwards and the error returned
    ([None] is nil). *)
Definition Reload (eng : engine) : engine * option string :=
  match All (storage eng) with
  | Err err => (eng, Some ("engine: read rules from storage: " ++ err))
  | Ok rs =>
      match compile_rules rs ∅ with
      | Err err => (eng, Some err)
      | Ok swap => (with_rules eng swap, None)
      end
  end.

End Engine.

(** ** The engine in service

    The HTTP server hands every request to [ServeHTTP] with a response
    writer nothing was written to; the management layer calls [Reload].
    [ServeHTTP] reads the engine and assigns none of its fields. *)
Inductive Input : Type :=
| Serve (rq : Request)
| DoReload.

Inductive Output : Type :=
| Response (wr : ResponseWriter) (calls : list Call)
| Reloaded (err : option string).

Section Service.

Context `{GL : Library} `{TL : TemplateLib} `{CO : Collaborators}.

Definition step (eng : engine) (i : Input) : engine * Output :=
  match i with
  | Serve rq =>
      let '(wr, calls) := ServeHTTP eng newResponseWriter rq in
      (eng, Response wr calls)
  | DoReload =>
      let '(eng', err) := Reload eng in
      (eng', Reloaded err)
  end.

Fixpoint run (eng : engine) (inputs : list Input) : engine * list Output :=
  match inputs with
  | [] => (eng, [])
  | i :: rest =>
      let '(eng', o) := step eng i in
      let '(eng'', os) := run eng' rest in
      (eng'', o :: os)
  end.

(** The management layer changed what the storage holds. *)
Definition with_storage (eng : engine) (st : Storage) : engine :=
  {| storage := st; stat := stat eng; rules := rules eng;
     defaultUrl := defaultUrl eng; urlParameter := urlParameter eng;
     robots := robots eng |}.

(** The service key of a request. *)
Definition service_of (rq : Request) : string :=
  GoStrings.Trim (URLPath rq) "/".

(** A request is matched (its rule renders [out], trimmed to [url]) or
    defaulted (no rule, and a default URL [url] is configured). *)
Inductive resolves (eng : engine) (rq : Request) : string -> Prop :=
| resolves_rule tpl out :
    rules eng !! service_of rq = Some tpl ->
    Execute tpl rq = Ok out ->
    resolves eng rq (GoStrings.TrimSpace out)
| resolves_default :
    rules eng !! service_of rq = None ->
    defaultUrl eng <> EmptyString ->
    resolves eng rq (defaultUrl eng).

(** The URL the redirect policy makes of [url] for the client of [rq]:
    the first statement of [engine.Redirect]. *)
Definition policy_url (eng : engine) (rq : Request) (url : string) : string :=
  if IsRegularUser eng rq then ProcessRegularUserUrl eng url else url.

(** The last rule of a rule set that has the key [k]. *)
Fixpoint last_rule (rs : list Rule) (k : string) : option Rule :=
  match rs with
  | [] => None
  | rule :: rest =>
      match last_rule rest k with
      | Some r => Some r
      | None => if String.eqb (URL rule) k then Some rule else None
      end
  end.

(** The table [Reload] is to build from a rule set: under each key the
    compiled template of the last rule with that key. *)
Definition table_of (rs : list Rule) (k : string) : option Template :=
  match last_rule rs k with
  | Some rule =>
      match Parse (LocationTemplate rule) with
      | Ok t => Some t
      | Err _ => None
      end
  | None => None
  end.

Definition compiles (rule : Rule) : Prop :=
  exists t, Parse (LocationTemplate rule) = Ok t.

Definition fails_to_compile (rule : Rule) : Prop :=
  exists err, Parse (LocationTemplate rule) = Err err.

End Service.

(** ** A small template language and in-memory collaborators

    Used to run the engine on concrete requests. *)
Module Sample.

(** Literal text renders to itself; [{{.Missing}}] compiles and fails
    when executed (the request has no such field); any other text that
    opens an action is a syntax error. *)
Inductive tpl : Type :=
| Lit (text : string)
| Missing.

Definition parse (src : string) : result tpl :=
  if String.eqb src "{{.Missing}}" then Ok Missing
  else if GoStrings.Contains src "{{" then Err "template: :1: unclosed action"
  else Ok (Lit src).

Definition execute (t : tpl) (rq : Request) : result string :=
  match t with
  | Lit text => Ok text
  | Missing => Err "template: :1:2: can't evaluate field Missing in type *http.Request"
  end.

#[export] Instance lib : TemplateLib :=
  {| Template := tpl; Parse := parse; Execute := execute |}.

(** [path.Split]: the directory of a path, with its last slash. *)
Fixpoint dir_of (path : string) : string :=
  match path with
  | EmptyString => EmptyString
  | String c rest =>
      match dir_of rest with
      | EmptyString => if Ascii.eqb c "/" then "/" else EmptyString
      | d => String c d
      end
  end.

(** The URL before its first [?], and from it on. *)
Fixpoint before_query (url : string) : string :=
  match url with
  | EmptyString => EmptyString
  | String c rest => if Ascii.eqb c "?" then EmptyString else String c (before_query rest)
  end.

Fixpoint from_query (url : string) : string :=
  match url with
  | EmptyString => EmptyString
  | String c rest => if Ascii.eqb c "?" then url else from_query rest
  end.

Definition has_suffix (s suffix : string) : bool :=
  GoStrings.HasPrefix (GoStrings.reverse s) (GoStrings.reverse suffix).

(** [path.Clean] on the elements of a path: empty elements and [.] go, an
    element and the [..] after it go together, [..] at the root goes and
    [..] in front of a path that is not rooted stays.  [kept] holds the
    elements kept so far, the last one first. *)
Fixpoint clean_elements (rooted : bool) (elements kept : list string) : list string :=
  match elements with
  | [] => rev kept
  | e :: rest =>
      if String.eqb e EmptyString || String.eqb e "." then clean_elements rooted rest kept
      else if String.eqb e ".." then
        match kept with
        | top :: below =>
            if String.eqb top ".." then clean_elements rooted rest (e :: kept)
            else clean_elements rooted rest below
        | [] =>
            if rooted then clean_elements rooted rest []
            else clean_elements rooted rest [e]
        end
      else clean_elements rooted rest (e :: kept)
  end.

Fixpoint join_elements (elements : list string) : string :=
  match elements with
  | [] => EmptyString
  | [e] => e
  | e :: rest => e ++ "/" ++ join_elements rest
  end.

Definition Clean (path : string) : string :=
  let rooted := GoStrings.HasPrefix path "/" in
  let cleaned :=
    (if rooted then "/" else EmptyString)
    ++ join_elements (clean_elements rooted (GoStrings.Split path "/") []) in
  if String.eqb cleaned EmptyString then "." else cleaned.

(** A URL without scheme and host made absolute against the request path,
    as [http.Redirect] does it. *)
Definition make_absolute (oldpath url : string) : string :=
  let oldpath := if String.eqb oldpath EmptyString then "/" else oldpath in
  let url := if GoStrings.HasPrefix url "/" then url else dir_of oldpath ++ url in
  let trailing := has_suffix (before_query url) "/" in
  let cleaned := Clean (before_query url) in
  let cleaned :=
    if trailing && negb (has_suffix cleaned "/") then cleaned ++ "/" else cleaned in
  cleaned ++ from_query url.

(** The URL [http.Redirect] goes on with, for the URLs of the examples:
    one that begins with a scheme or with [//] is left alone, any other is
    taken to parse without scheme and host. *)
Definition resolve (oldpath url : string) : string :=
  if has_scheme url || GoStrings.HasPrefix url "//" then url
  else make_absolute oldpath url.

#[export] Instance golib : Library :=
  {| ToLower := GoStrings.ToLowerASCII;
     ToLower_ascii := fun _ _ => eq_refl;
     redirectURL := resolve;
     redirectURL_absolute := fun oldpath url H =>
       @eq_ind_r bool true
         (fun b : bool =>
            (if b || GoStrings.HasPrefix url "//" then url
             else make_absolute oldpath url) = url)
         eq_refl (has_scheme url) H |}.

(** A storage that answers with a fixed snapshot, and a sink. *)
#[export] Instance collab : Collaborators :=
  {| Storage := result (list Rule); All := fun st => st; StatWriter := unit |}.

Definition request (method path agent : string) : Request :=
  {| Method := method; URLPath := path; RawQuery := EmptyString;
     ReqHeader := {[ "User-Agent" := [agent] ]} |}.

Definition R1 : list Rule :=
  [ {| URL := "google"; LocationTemplate := "http://google.com" |};
    {| URL := "svc"; LocationTemplate := " http://t.com " |};
    {| URL := "q"; LocationTemplate := "http://t.com?id=1" |};
    {| URL := "home"; LocationTemplate := "http://home.example" |};
    {| URL := "broken"; LocationTemplate := "{{.Missing}}" |} ].

Definition R2 : list Rule :=
  [ {| URL := "fresh"; LocationTemplate := "http://a.example" |};
    {| URL := "bad"; LocationTemplate := "{{if" |};
    {| URL := "google"; LocationTemplate := "http://b.example" |} ].

(** The engine [DefaultEngine] builds over the storage snapshot [R1]
    with the query parameter [ref=x]. *)
Definition boot (defaultUrl robots : string) : engine :=
  {| storage := Ok R1; stat := tt; rules := ∅;
     defaultUrl := defaultUrl; urlParameter := "ref=x";
     robots := GoStrings.Split robots "|" |}.

(** The same engine after its first reload. *)
Definition loaded (defaultUrl robots : string) : engine :=
  fst (Reload (boot defaultUrl robots)).

Definition fetch (eng : engine) (method path agent : string) : ResponseWriter :=
  fst (ServeHTTP eng newResponseWriter (request method path agent)).

(** The robot list and query parameter of the decoration example, no
    default URL. *)
Definition plain : engine := loaded EmptyString "bot|crawler".

(** The same with the default URL [http://home.example]. *)
Definition homed : engine := loaded "http://home.example" "bot|crawler".

(** A robot substring configured with an upper-case letter. *)
Definition cased : engine := loaded EmptyString "Bot".

(** The storage now holds [R2], with one template that does not compile. *)
Definition restocked : engine := with_storage plain (Ok R2).

(** A rule that renders to a URL without scheme and host, and the engine
    that has loaded it. *)
Definition R4 : list Rule :=
  [ {| URL := "dir/rel"; LocationTemplate := "target" |} ].

Definition relative : engine :=
  fst (Reload (with_storage (boot EmptyString "bot|crawler") (Ok R4))).

(** The engine of an empty robots configuration, after its first reload. *)
Definition unguarded : engine := loaded EmptyString EmptyString.

(** The storage hands out the rules of [R1] in the opposite order. *)
Definition shuffled : engine :=
  with_storage (boot EmptyString "bot|crawler") (Ok (rev R1)).

(** The robots of [plain] configured in another order, with a doubled and
    a trailing separator. *)
Definition sloppy : engine := loaded EmptyString "crawler||bot|".

(** A request that has no [User-Agent] header. *)
Definition anonymous : Request :=
  {| Method := "GET"; URLPath := "/svc"; RawQuery := EmptyString;
     ReqHeader := ∅ |}.

(** An engine over an empty storage. *)
Definition bare : engine :=
  {| storage := Ok []; stat := tt; rules := ∅;
     defaultUrl := EmptyString; urlParameter := EmptyString; robots := [] |}.

End Sample.

(** ** Notions for the properties of the service key and the robots list *)

(** [strings.Join(fields, sep)]: what [Split] takes apart. *)
Fixpoint Join (fields : list string) (sep : string) : string :=
  match fields with
  | [] => EmptyString
  | field :: rest =>
      match rest with
      | [] => field
      | _ => field ++ sep ++ Join rest sep
      end
  end.

(** A key that begins or ends with the path separator. *)
Definition slash_ended (k : string) : Prop :=
  (exists t, k = "/" ++ t) \/ (exists t, k = t ++ "/").

(** The table is that of the engine [eng0] or the table of what [eng0]'s
    storage holds. *)
Definition generation_of `{GL : Library} `{TL : TemplateLib} `{CO : Collaborators}
    (eng0 eng : engine) : Prop :=
  storage eng = storage eng0 /\
  (rules eng = rules eng0 \/
   exists rs, All (storage eng0) = Ok rs /\ Forall compiles rs /\
              forall k, rules eng !! k = table_of rs k).

(** * Properties *)

(** ** The library models on the inputs of the documentation *)
Example split_robots :
  GoStrings.Split "bot|crawler" "|" = ["bot"; "crawler"].
Proof. reflexivity. Qed.

Example split_empty : GoStrings.Split EmptyString "|" = [EmptyString].
Proof. reflexivity. Qed.

Example split_edges :
  GoStrings.Split "|a||b|" "|"
  = [EmptyString; "a"; EmptyString; "b"; EmptyString].
Proof. reflexivity. Qed.

Example trim_path : GoStrings.Trim "/your/cool/service/" "/" = "your/cool/service".
Proof. reflexivity. Qed.

Example lower_agent : GoStrings.ToLowerASCII "Some-Crawler/1.0" = "some-crawler/1.0".
Proof. reflexivity. Qed.

(** ** The string functions *)
Section StringFacts.

Import GoStrings.

Lemma app_cons (c : ascii) (a b : string) : String c a ++ b = String c (a ++ b).
Proof. reflexivity. Qed.

Lemma app_nil_l (b : string) : EmptyString ++ b = b.
Proof. reflexivity. Qed.

Lemma append_assoc (a b c : string) : (a ++ b) ++ c = a ++ (b ++ c).
Proof.
  induction a as [|x a IH]; [reflexivity|].
  now rewrite !app_cons, IH.
Qed.

Lemma HasPrefix_nil (s : string) : HasPrefix s EmptyString = true.
Proof. destruct s; reflexivity. Qed.

Lemma HasPrefix_app (pre t : string) : HasPrefix (pre ++ t) pre = true.
Proof.
  induction pre as [|p pre IH]; [apply HasPrefix_nil|].
  rewrite app_cons; simpl. now rewrite Ascii.eqb_refl.
Qed.

Lemma HasPrefix_inv (s pre : string) :
  HasPrefix s pre = true -> exists t, s = pre ++ t.
Proof.
  revert s; induction pre as [|p pre IH]; intros s H.
  - exists s; reflexivity.
  - destruct s as [|c s]; simpl in H; [discriminate|].
    destruct (Ascii.eqb c p) eqn:E; [|discriminate].
    apply Ascii.eqb_eq in E; subst c.
    destruct (IH s H) as [t ->]. exists t; reflexivity.
Qed.

Lemma HasPrefix_iff (s pre : string) :
  HasPrefix s pre = true <-> exists t, s = pre ++ t.
Proof.
  split; [apply HasPrefix_inv|].
  intros [t ->]. apply HasPrefix_app.
Qed.

Lemma Contains_prefix (s substr : string) :
  HasPrefix s substr = true -> Contains s substr = true.
Proof. intros H. destruct s; simpl in *; rewrite H; reflexivity. Qed.

(** [Contains] finds the substring wherever it occurs. *)
Lemma Contains_iff (s substr : string) :
  Contains s substr = true <-> exists a b, s = a ++ substr ++ b.
Proof.
  split.
  - induction s as [|c s IH]; intros H; cbn [Contains] in H.
    + rewrite orb_false_r in H. apply HasPrefix_inv in H as [t Ht].
      exists EmptyString, t; exact Ht.
    + apply orb_true_iff in H as [H|H].
      * apply HasPrefix_inv in H as [t Ht].
        exists EmptyString, t; exact Ht.
      * destruct (IH H) as (a & b & ->).
        exists (String c a), b; reflexivity.
  - intros (a & b & ->).
    induction a as [|x a IH].
    + rewrite app_nil_l. apply Contains_prefix, HasPrefix_app.
    + rewrite app_cons; cbn [Contains]. rewrite IH. apply orb_true_r.
Qed.

Lemma is_ascii_app (a b : string) :
  is_ascii (a ++ b) = is_ascii a && is_ascii b.
Proof.
  induction a as [|c a IH]; [reflexivity|].
  rewrite app_cons; simpl. now rewrite IH, andb_assoc.
Qed.

Lemma ToLowerASCII_app (a b : string) :
  ToLowerASCII (a ++ b) = ToLowerASCII a ++ ToLowerASCII b.
Proof.
  induction a as [|c a IH]; [reflexivity|].
  rewrite app_cons; simpl. now rewrite IH.
Qed.

(** A URL that begins with a scheme still does with more behind it. *)
Lemma scheme_ends_app (s t : string) :
  scheme_ends s = true -> scheme_ends (s ++ t) = true.
Proof.
  induction s as [|c s IH]; [discriminate|].
  rewrite app_cons; simpl.
  destruct (Ascii.eqb c ":"); [reflexivity|].
  destruct (is_scheme_byte c); [exact IH|discriminate].
Qed.

Lemma has_scheme_app (url t : string) :
  has_scheme url = true -> has_scheme (url ++ t) = true.
Proof.
  destruct url as [|c url]; [discriminate|].
  rewrite app_cons; simpl. intros H.
  apply andb_true_iff in H as [-> H]. now apply scheme_ends_app.
Qed.

End StringFacts.

(** ** Headers and the response writer *)
Section HttpFacts.

Context `{GL : Library}.

Lemma header_Get_Set (h : gmap string (list string)) (k v : string) :
  header_Get (header_Set h k v) k = v.
Proof. unfold header_Get, header_Set. now rewrite lookup_insert_eq. Qed.

Lemma header_Get_Set_ne (h : gmap string (list string)) (k k' v : string) :
  k <> k' -> header_Get (header_Set h k v) k' = header_Get h k'.
Proof.
  intros Hne. unfold header_Get, header_Set. now rewrite lookup_insert_ne.
Qed.

Lemma header_Get_Add_new (h : gmap string (list string)) (k v : string) :
  h !! k = None -> header_Get (header_Add h k v) k = v.
Proof.
  intros Hk. unfold header_Get, header_Add.
  now rewrite lookup_insert_eq, Hk.
Qed.

Lemma header_Get_Add_ne (h : gmap string (list string)) (k k' v : string) :
  k <> k' -> header_Get (header_Add h k v) k' = header_Get h k'.
Proof.
  intros Hne. unfold header_Get, header_Add. now rewrite lookup_insert_ne.
Qed.

Lemma header_WriteHeader (w : ResponseWriter) (code : nat) :
  header (WriteHeader w code) = header w.
Proof. unfold WriteHeader. now destruct (status w). Qed.

Lemma body_WriteHeader (w : ResponseWriter) (code : nat) :
  body (WriteHeader w code) = body w.
Proof. unfold WriteHeader. now destruct (status w). Qed.

Lemma status_WriteHeader (w : ResponseWriter) (code : nat) :
  status w = None -> status (WriteHeader w code) = Some code.
Proof. unfold WriteHeader. now intros ->. Qed.

Lemma status_WriteHeader_again (w : ResponseWriter) (code code' : nat) :
  status w = Some code -> status (WriteHeader w code') = Some code.
Proof. unfold WriteHeader. intros H. now rewrite H. Qed.

Lemma header_Write (w : ResponseWriter) (data : string) :
  header (Write w data) = header w.
Proof. unfold Write; simpl. apply header_WriteHeader. Qed.

Lemma status_Write (w : ResponseWriter) (data : string) (code : nat) :
  status w = Some code -> status (Write w data) = Some code.
Proof. unfold Write; simpl. apply status_WriteHeader_again. Qed.

Lemma hexEscapeNonASCII_ascii (s : string) :
  GoStrings.is_ascii s = true -> hexEscapeNonASCII s = s.
Proof.
  induction s as [|c s IH]; simpl; [reflexivity|].
  intros H. apply andb_true_iff in H as [-> H]. now rewrite IH.
Qed.

(** [http.Redirect] sets [Location] to the URL it goes on with,
    percent-escaped. *)
Lemma Redirect_Location (w : ResponseWriter) (r : Request) (url : string) (code : nat) :
  header_Get (header (NetHTTP.Redirect w r url code)) "Location"
  = hexEscapeNonASCII (redirectURL (URLPath r) url).
Proof.
  unfold NetHTTP.Redirect.
  repeat match goal with
         | |- context [if ?b then _ else _] => destruct b
         end;
    rewrite ?header_Write, ?header_WriteHeader; simpl;
    rewrite ?header_Get_Set_ne by discriminate;
    apply header_Get_Set.
Qed.

(** ... writes the status it is given, when none was written before ... *)
Lemma Redirect_status (w : ResponseWriter) (r : Request) (url : string) (code : nat) :
  status w = None -> status (NetHTTP.Redirect w r url code) = Some code.
Proof.
  intros Hs. unfold NetHTTP.Redirect.
  repeat match goal with
         | |- context [if ?b then _ else _] => destruct b
         end;
    try apply status_Write; apply status_WriteHeader; exact Hs.
Qed.

(** ... and leaves the headers other than [Location] and [Content-Type]
    alone. *)
Lemma Redirect_others (w : ResponseWriter) (r : Request) (url k : string) (code : nat) :
  k <> "Location" -> k <> "Content-Type" ->
  header_Get (header (NetHTTP.Redirect w r url code)) k = header_Get (header w) k.
Proof.
  intros H1 H2. unfold NetHTTP.Redirect.
  repeat match goal with
         | |- context [if ?b then _ else _] => destruct b
         end;
    rewrite ?header_Write, ?header_WriteHeader; simpl;
    rewrite ?header_Get_Set_ne by congruence; reflexivity.
Qed.

(** [http.Error] answers with the code and the error text on a line. *)
Lemma Error_status (w : ResponseWriter) (err : string) (code : nat) :
  status w = None -> status (Error w err code) = Some code.
Proof.
  intros Hs. unfold Error. apply status_Write, status_WriteHeader. exact Hs.
Qed.

Lemma Error_body (w : ResponseWriter) (err : string) (code : nat) :
  body (Error w err code) = body w ++ err ++ newline.
Proof. unfold Error, Write; simpl. now rewrite !body_WriteHeader. Qed.

End HttpFacts.

(** ** The redirect policy *)
Section Policy.

Context `{GL : Library} `{TL : TemplateLib} `{CO : Collaborators}.
Import GoStrings.

Lemma no_robot_in_false_iff (userAgent : string) (rs : list string) :
  no_robot_in userAgent rs = false <->
  exists robot, In robot rs /\ robot <> EmptyString /\ Contains userAgent robot = true.
Proof.
  induction rs as [|r rs IH]; simpl.
  - split; [discriminate|]. intros (robot & [] & _).
  - destruct (String.eqb_spec r EmptyString) as [->|Hne]; simpl.
    + rewrite IH. split.
      * intros (robot & Hin & Hr & Hc). exists robot; auto.
      * intros (robot & [<-|Hin] & Hr & Hc); [congruence|].
        exists robot; auto.
    + destruct (Contains userAgent r) eqn:Hc.
      * split; [|reflexivity]. intros _. exists r; auto.
      * rewrite IH. split.
        -- intros (robot & Hin & Hr & Hc'). exists robot; auto.
        -- intros (robot & [<-|Hin] & Hr & Hc'); [congruence|].
           exists robot; auto.
Qed.

Lemma no_robot_in_true_iff (userAgent : string) (rs : list string) :
  no_robot_in userAgent rs = true <->
  forall robot, In robot rs -> robot <> EmptyString -> Contains userAgent robot = false.
Proof.
  split.
  - intros Ht robot Hin Hne.
    destruct (Contains userAgent robot) eqn:Hc; [|reflexivity].
    assert (no_robot_in userAgent rs = false) as Hf
      by (apply no_robot_in_false_iff; exists robot; auto).
    congruence.
  - intros Hall. destruct (no_robot_in userAgent rs) eqn:E; [reflexivity|].
    apply no_robot_in_false_iff in E as (robot & Hin & Hne & Hc).
    rewrite (Hall robot Hin Hne) in Hc. discriminate.
Qed.

(** [Redirect] hands the URL the policy makes of [url] to [http.Redirect],
    after it has added the [Content-Length] header. *)
Lemma Redirect_hands_on (eng : engine) (url : string)
    (wr : ResponseWriter) (rq : Request) :
  Redirect eng url wr rq
  = NetHTTP.Redirect (with_header wr (header_Add (header wr) "Content-Length" "0"))
      rq (policy_url eng rq url) StatusMovedPermanently.
Proof. reflexivity. Qed.

(** The [Location] is what [http.Redirect] makes of that URL. *)
Lemma Redirect_Location_policy (eng : engine) (url : string)
    (wr : ResponseWriter) (rq : Request) :
  header_Get (header (Redirect eng url wr rq)) "Location"
  = hexEscapeNonASCII (redirectURL (URLPath rq) (policy_url eng rq url)).
Proof. rewrite Redirect_hands_on. apply Redirect_Location. Qed.

(** A URL that begins with a scheme and is all ASCII is sent as it is. *)
Lemma absolute_ascii_unchanged (oldpath url : string) :
  has_scheme url = true -> is_ascii url = true ->
  hexEscapeNonASCII (redirectURL oldpath url) = url.
Proof.
  intros Hs Ha. rewrite (redirectURL_absolute oldpath url Hs).
  now apply hexEscapeNonASCII_ascii.
Qed.

Lemma policy_url_cases (eng : engine) (rq : Request) (url : string) :
  policy_url eng rq url
  = if IsRegularUser eng rq
    then if String.eqb (urlParameter eng) EmptyString then url
         else if Contains url "?" then url ++ "&" ++ urlParameter eng
              else url ++ "?" ++ urlParameter eng
    else url.
Proof. reflexivity. Qed.

Lemma Redirect_status_301 (eng : engine) (url : string)
    (wr : ResponseWriter) (rq : Request) :
  status wr = None ->
  status (Redirect eng url wr rq) = Some StatusMovedPermanently.
Proof. intros Hs. unfold Redirect. now apply Redirect_status. Qed.

Lemma Redirect_Content_Length (eng : engine) (url : string)
    (wr : ResponseWriter) (rq : Request) :
  header wr !! "Content-Length" = None ->
  header_Get (header (Redirect eng url wr rq)) "Content-Length" = "0".
Proof.
  intros Hh. unfold Redirect.
  rewrite Redirect_others by discriminate. simpl.
  now apply header_Get_Add_new.
Qed.

(** The configuration never changes: [Reload] assigns [rules] only. *)
Lemma Reload_config (eng : engine) :
  let eng' := fst (Reload eng) in
  defaultUrl eng' = defaultUrl eng /\ urlParameter eng' = urlParameter eng /\
  robots eng' = robots eng /\ storage eng' = storage eng.
Proof.
  unfold Reload. destruct (All (storage eng)) as [rs|err]; simpl; [|auto].
  destruct (compile_rules rs ∅); simpl; auto.
Qed.

Lemma step_config (eng : engine) (i : Input) :
  let eng' := fst (step eng i) in
  defaultUrl eng' = defaultUrl eng /\ urlParameter eng' = urlParameter eng /\
  robots eng' = robots eng /\ storage eng' = storage eng.
Proof.
  destruct i as [rq|]; simpl.
  - destruct (ServeHTTP eng newResponseWriter rq); simpl; auto.
  - pose proof (Reload_config eng) as H.
    destruct (Reload eng); simpl in *; exact H.
Qed.

Lemma run_config (inputs : list Input) (eng : engine) :
  let eng' := fst (run eng inputs) in
  defaultUrl eng' = defaultUrl eng /\ urlParameter eng' = urlParameter eng /\
  robots eng' = robots eng /\ storage eng' = storage eng.
Proof.
  revert eng; induction inputs as [|i rest IH]; intros eng; simpl; [auto|].
  pose proof (step_config eng i) as Hs.
  destruct (step eng i) as [eng1 o]; simpl in Hs.
  specialize (IH eng1). destruct (run eng1 rest) as [eng2 os]; simpl in *.
  destruct Hs as (H1 & H2 & H3 & H4), IH as (I1 & I2 & I3 & I4).
  repeat split; congruence.
Qed.

(** C5 -- URL decoration: the URL that [Redirect] decorates and hands to
    [http.Redirect] is the URL unchanged for an identified robot; for a
    regular client and a query parameter that is not empty it is the URL,
    then [&] when the URL has a [?] in it and [?] otherwise, then the
    parameter; with an empty query parameter it is the URL unchanged for
    every client. *)
Theorem Redirect_decorates (eng : engine) (url : string)
    (wr : ResponseWriter) (rq : Request) :
  let final := policy_url eng rq url in
  Redirect eng url wr rq
  = NetHTTP.Redirect (with_header wr (header_Add (header wr) "Content-Length" "0"))
      rq final StatusMovedPermanently /\
  (IsRegularUser eng rq = false -> final = url) /\
  (IsRegularUser eng rq = true -> urlParameter eng <> EmptyString ->
     (Contains url "?" = true -> final = url ++ "&" ++ urlParameter eng) /\
     (Contains url "?" = false -> final = url ++ "?" ++ urlParameter eng)) /\
  (urlParameter eng = EmptyString -> final = url).
Proof.
  cbv zeta. split; [apply Redirect_hands_on|].
  rewrite policy_url_cases.
  split; [|split].
  - now intros ->.
  - intros -> Hp. apply String.eqb_neq in Hp as ->.
    split; now intros ->.
  - intros ->. simpl. now destruct (IsRegularUser eng rq).
Qed.


End Policy.

(** ** Reload *)
Section ReloadFacts.

Context `{GL : Library} `{TL : TemplateLib} `{CO : Collaborators}.

Lemma last_rule_In (rs : list Rule) (k : string) (r : Rule) :
  last_rule rs k = Some r -> In r rs /\ URL r = k.
Proof.
  induction rs as [|rule rest IH]; simpl; [discriminate|].
  destruct (last_rule rest k) as [r'|].
  - intros [= ->]. destruct IH as [Hin Hk]; auto.
  - destruct (String.eqb_spec (URL rule) k) as [Hk|]; [|discriminate].
    intros [= ->]. auto.
Qed.

Lemma last_rule_None (rs : list Rule) (k : string) :
  last_rule rs k = None <-> forall r, In r rs -> URL r <> k.
Proof.
  induction rs as [|rule rest IH]; simpl.
  - split; [intros _ r []|reflexivity].
  - destruct (last_rule rest k) as [r'|] eqn:Hl.
    + split; [discriminate|]. intros Hall.
      destruct (last_rule_In rest k r' Hl) as [Hin Hk].
      exfalso. apply (Hall r'); auto.
    + destruct (String.eqb_spec (URL rule) k) as [Hk|Hk].
      * split; [discriminate|]. intros Hall. exfalso. apply (Hall rule); auto.
      * split; [|reflexivity]. intros _ r [<-|Hin]; [exact Hk|].
        now apply IH.
Qed.

(** When every rule compiles the loop ends with the table of the rule
    set laid over the table it started from. *)
Lemma compile_rules_all (rs : list Rule) (swap : gmap string Template) :
  Forall compiles rs ->
  exists tbl, compile_rules rs swap = Ok tbl /\
              forall k, tbl !! k = match table_of rs k with
                                   | Some t => Some t
                                   | None => swap !! k
                                   end.
Proof.
  intros Hall. revert swap.
  induction Hall as [|rule rest [t Ht] Hrest IH]; intros swap.
  - exists swap. split; reflexivity.
  - simpl. rewrite Ht.
    destruct (IH (<[URL rule := t]> swap)) as (tbl & Hc & Hk).
    exists tbl. split; [exact Hc|].
    intros k. rewrite Hk. unfold table_of; simpl.
    destruct (last_rule rest k) as [r|] eqn:Hl.
    + destruct (last_rule_In rest k r Hl) as [Hin _].
      destruct (proj1 (List.Forall_forall compiles rest) Hrest r Hin) as [t' Ht'].
      now rewrite Ht'.
    + destruct (String.eqb_spec (URL rule) k) as [->|Hne].
      * now rewrite Ht, lookup_insert_eq.
      * now rewrite lookup_insert_ne.
Qed.

(** When some rule does not compile the loop ends with the error of the
    first such rule, whatever table it started from. *)
Lemma compile_rules_some_bad (rs : list Rule) (swap : gmap string Template) :
  Exists fails_to_compile rs ->
  exists rule err,
    In rule rs /\ Parse (LocationTemplate rule) = Err err /\
    compile_rules rs swap
    = Err ("engine: parse rule for url " ++ URL rule ++ ": " ++ err).
Proof.
  intros Hex. revert swap.
  induction rs as [|rule rest IH]; intros swap; [inversion Hex|].
  simpl. destruct (Parse (LocationTemplate rule)) as [t|err] eqn:Hp.
  - assert (Exists fails_to_compile rest) as Hrest.
    { inversion Hex as [? ? [e He]|]; subst; [congruence|assumption]. }
    destruct (IH Hrest (<[URL rule := t]> swap)) as (r & e & Hin & Hpe & Hc).
    exists r, e. auto.
  - exists rule, err. auto.
Qed.


End ReloadFacts.

(** ** Dispatch *)
Section Dispatch.

Context `{GL : Library} `{TL : TemplateLib} `{CO : Collaborators}.
Import GoStrings.

Lemma ServeHTTP_rendered (eng : engine) (wr : ResponseWriter) (rq : Request)
    (tpl : Template) (out : string) :
  rules eng !! service_of rq = Some tpl ->
  Execute tpl rq = Ok out ->
  ServeHTTP eng wr rq
  = (if String.eqb (Method rq) "HEAD"
     then WriteHeader
            (with_header wr (header_Add (header wr) "Location" (TrimSpace out)))
            StatusOK
     else Redirect eng (TrimSpace out) wr rq,
     [CallTouch (service_of rq); CallExecute (service_of rq)]).
Proof.
  unfold ServeHTTP, service_of. intros -> ->.
  now destruct (String.eqb (Method rq) "HEAD").
Qed.

Lemma ServeHTTP_render_error (eng : engine) (wr : ResponseWriter) (rq : Request)
    (tpl : Template) (err : string) :
  rules eng !! service_of rq = Some tpl ->
  Execute tpl rq = Err err ->
  ServeHTTP eng wr rq
  = (Error wr err StatusInternalServerError,
     [CallTouch (service_of rq); CallExecute (service_of rq);
      CallLog ("engine: failed execute template for service "
               ++ service_of rq ++ " : " ++ err)]).
Proof. unfold ServeHTTP, service_of. now intros -> ->. Qed.

Lemma ServeHTTP_default (eng : engine) (wr : ResponseWriter) (rq : Request) :
  rules eng !! service_of rq = None ->
  defaultUrl eng <> EmptyString ->
  ServeHTTP eng wr rq = (Redirect eng (defaultUrl eng) wr rq, []).
Proof.
  unfold ServeHTTP, service_of. intros -> Hd.
  now apply String.eqb_neq in Hd as ->.
Qed.

Lemma ServeHTTP_not_found (eng : engine) (wr : ResponseWriter) (rq : Request) :
  rules eng !! service_of rq = None ->
  defaultUrl eng = EmptyString ->
  ServeHTTP eng wr rq = (NotFound wr rq, []).
Proof. unfold ServeHTTP, service_of. now intros -> ->. Qed.

Lemma has_scheme_policy (eng : engine) (rq : Request) (url : string) :
  has_scheme url = true -> has_scheme (policy_url eng rq url) = true.
Proof.
  intros Hs. rewrite policy_url_cases.
  destruct (IsRegularUser eng rq); [|exact Hs].
  destruct (String.eqb (urlParameter eng) EmptyString); [exact Hs|].
  destruct (Contains url "?"); now apply has_scheme_app.
Qed.

(** [Redirect] reads the robots and the query parameter of the engine, and
    the method, the user-agent and the path of the request; the path only
    for a URL that does not begin with a scheme. *)
Lemma Redirect_same_policy (eng eng' : engine) (url : string)
    (wr : ResponseWriter) (rq rq' : Request) :
  robots eng' = robots eng -> urlParameter eng' = urlParameter eng ->
  Method rq' = Method rq -> UserAgent rq' = UserAgent rq ->
  URLPath rq' = URLPath rq \/ has_scheme url = true ->
  Redirect eng' url wr rq' = Redirect eng url wr rq.
Proof.
  intros Hr Hp Hm Hua Hpath.
  assert (policy_url eng' rq' url = policy_url eng rq url) as Hfinal.
  { unfold policy_url, IsRegularUser, ProcessRegularUserUrl.
    now rewrite Hr, Hp, Hua. }
  assert (redirectURL (URLPath rq') (policy_url eng rq url)
          = redirectURL (URLPath rq) (policy_url eng rq url)) as Hurl.
  { destruct Hpath as [->|Hs]; [reflexivity|].
    pose proof (has_scheme_policy eng rq url Hs) as Hs'.
    now rewrite !(redirectURL_absolute _ _ Hs'). }
  rewrite !Redirect_hands_on, Hfinal. unfold NetHTTP.Redirect.
  now rewrite Hurl, Hm.
Qed.

(** C2 (as amended) -- A matched rule whose rendering succeeds: a HEAD
    request is answered with status 200, no body, and [Location] set to
    the rendered URL, trimmed, as it is; the redirect policy is not
    applied to it.  A request of any other method goes through
    [Redirect]: status 301 and [Location] set by [http.Redirect] from the
    URL the policy makes of the rendered one. *)
Theorem matched_response (eng : engine) (rq : Request)
    (tpl : Template) (out : string) :
  rules eng !! service_of rq = Some tpl ->
  Execute tpl rq = Ok out ->
  let wr := fst (ServeHTTP eng newResponseWriter rq) in
  (Method rq = "HEAD" ->
     status wr = Some StatusOK /\
     header_Get (header wr) "Location" = TrimSpace out /\
     header wr !! "Content-Length" = None /\
     body wr = EmptyString) /\
  (Method rq <> "HEAD" ->
     status wr = Some StatusMovedPermanently /\
     header_Get (header wr) "Location"
     = hexEscapeNonASCII
         (redirectURL (URLPath rq) (policy_url eng rq (TrimSpace out)))).
Proof.
  intros Hl He. rewrite (ServeHTTP_rendered _ _ _ _ _ Hl He). cbv zeta. split.
  - intros ->. simpl. repeat split.
  - intros Hm. apply String.eqb_neq in Hm as ->. simpl. split.
    + now apply Redirect_status_301.
    + apply Redirect_Location_policy.
Qed.

(** C3 (as amended) -- No rule for the service key: [Touch] is never
    called.  With a default URL configured and a method other than HEAD,
    the response is the very response of a request (same method, same
    user-agent, same policy configuration) that matches a rule rendering
    to the default URL, provided the two requests have the same path or
    the default URL begins with a scheme (any other URL is made absolute
    against the path of the request).  With no default URL configured the
    response is 404. *)
Theorem unmatched_response (eng : engine) (rq : Request) :
  rules eng !! service_of rq = None ->
  let r := ServeHTTP eng newResponseWriter rq in
  touches (snd r) = 0 /\
  (defaultUrl eng = EmptyString -> status (fst r) = Some StatusNotFound) /\
  (defaultUrl eng <> EmptyString -> Method rq <> "HEAD" ->
     forall (eng' : engine) (rq' : Request) tpl out,
       robots eng' = robots eng -> urlParameter eng' = urlParameter eng ->
       Method rq' = Method rq -> UserAgent rq' = UserAgent rq ->
       URLPath rq' = URLPath rq \/ has_scheme (defaultUrl eng) = true ->
       rules eng' !! service_of rq' = Some tpl ->
       Execute tpl rq' = Ok out ->
       TrimSpace out = defaultUrl eng ->
       fst (ServeHTTP eng' newResponseWriter rq') = fst r).
Proof.
  intros Hl. cbv zeta. split; [|split].
  - unfold ServeHTTP, service_of in *. rewrite Hl.
    now destruct (negb (String.eqb (defaultUrl eng) EmptyString)).
  - intros Hd. now rewrite (ServeHTTP_not_found _ _ _ Hl Hd).
  - intros Hd Hm eng' rq' tpl out Hr Hp Hm' Hua Hpath Hl' He Ht.
    rewrite (ServeHTTP_default _ _ _ Hl Hd). simpl.
    rewrite (ServeHTTP_rendered _ _ _ _ _ Hl' He), Hm'.
    apply String.eqb_neq in Hm as ->. simpl.
    rewrite Ht. now apply Redirect_same_policy.
Qed.

(** C6 (as amended) -- A matched or defaulted request whose method is not
    HEAD is answered with the permanent-redirect status 301, a
    [Content-Length] header of 0 and the [Location] header that
    [http.Redirect] makes of the final URL: the final URL itself when it
    begins with a scheme and is all ASCII; otherwise the URL made absolute
    against the request path when it has neither scheme nor host, with its
    bytes outside ASCII percent-escaped. *)
Theorem redirect_response (eng : engine) (rq : Request) (url : string) :
  resolves eng rq url ->
  Method rq <> "HEAD" ->
  let wr := fst (ServeHTTP eng newResponseWriter rq) in
  let final := policy_url eng rq url in
  status wr = Some StatusMovedPermanently /\
  header_Get (header wr) "Content-Length" = "0" /\
  header_Get (header wr) "Location"
  = hexEscapeNonASCII (redirectURL (URLPath rq) final) /\
  (has_scheme url = true -> is_ascii final = true ->
   header_Get (header wr) "Location" = final).
Proof.
  intros Hres Hm. cbv zeta.
  assert (fst (ServeHTTP eng newResponseWriter rq)
          = Redirect eng url newResponseWriter rq) as ->.
  { destruct Hres as [tpl out Hl He|Hl Hd].
    - rewrite (ServeHTTP_rendered _ _ _ _ _ Hl He).
      now apply String.eqb_neq in Hm as ->.
    - now rewrite (ServeHTTP_default _ _ _ Hl Hd). }
  split; [now apply Redirect_status_301|].
  split; [now apply Redirect_Content_Length|].
  split; [apply Redirect_Location_policy|].
  intros Hs Ha. rewrite Redirect_Location_policy.
  apply absolute_ascii_unchanged; [now apply has_scheme_policy|exact Ha].
Qed.

(** C7 (as amended) -- A matched rule that fails to render: the response
    has status 500 and its body is the text of the render error on a line
    of its own (the service key goes to the log, not to the client); the
    engine, its rule table included, is what it was, so every key, the
    failing one too, resolves to the same compiled rule afterwards. *)
Theorem render_failure_response (eng : engine) (rq : Request)
    (tpl : Template) (err : string) :
  rules eng !! service_of rq = Some tpl ->
  Execute tpl rq = Err err ->
  exists wr calls,
    step eng (Serve rq) = (eng, Response wr calls) /\
    status wr = Some StatusInternalServerError /\
    body wr = err ++ newline /\
    In (CallLog ("engine: failed execute template for service "
                 ++ service_of rq ++ " : " ++ err)) calls /\
    forall k, rules (fst (step eng (Serve rq))) !! k = rules eng !! k.
Proof.
  intros Hl He. unfold step.
  rewrite (ServeHTTP_render_error _ _ _ _ _ Hl He).
  eexists _, _. split; [reflexivity|].
  split; [reflexivity|]. split; [reflexivity|].
  split; [simpl; auto|reflexivity].
Qed.

(** C9 -- On every rule-table hit [Touch] is called with the service key,
    once, before the template is executed, also when the rendering then
    fails and the response is 500; a miss (default URL or 404) calls
    nothing. *)
Theorem touch_on_hit_only (eng : engine) (rq : Request) :
  let service := service_of rq in
  let r := ServeHTTP eng newResponseWriter rq in
  match rules eng !! service with
  | Some tpl =>
      (exists rest, snd r = CallTouch service :: CallExecute service :: rest) /\
      touches (snd r) = 1 /\
      (forall err, Execute tpl rq = Err err ->
                   status (fst r) = Some StatusInternalServerError)
  | None => snd r = [] /\ touches (snd r) = 0
  end.
Proof.
  cbv zeta. destruct (rules eng !! service_of rq) as [tpl|] eqn:Hl.
  - destruct (Execute tpl rq) as [out|err] eqn:He.
    + rewrite (ServeHTTP_rendered _ _ _ _ _ Hl He). simpl.
      split; [now exists []|]. split; [reflexivity|discriminate].
    + rewrite (ServeHTTP_render_error _ _ _ _ _ Hl He). simpl.
      split; [eexists; reflexivity|]. split; [reflexivity|].
      intros _ _. reflexivity.
  - unfold ServeHTTP, service_of in *. rewrite Hl.
    now destruct (negb (String.eqb (defaultUrl eng) EmptyString)).
Qed.

Lemma Reload_installs (eng : engine) (rs : list Rule) (rule : Rule) (k : string) :
  All (storage eng) = Ok rs ->
  Forall compiles rs ->
  last_rule rs k = Some rule ->
  exists tpl, Parse (LocationTemplate rule) = Ok tpl /\
              rules (fst (Reload eng)) !! k = Some tpl.
Proof.
  intros Hall Hc Hl. unfold Reload. rewrite Hall.
  destruct (compile_rules_all rs ∅ Hc) as (swap & -> & Hk). simpl.
  rewrite Hk. unfold table_of. rewrite Hl.
  destruct (last_rule_In rs k rule Hl) as [Hin _].
  destruct (proj1 (List.Forall_forall compiles rs) Hc rule Hin) as [t Ht].
  rewrite Ht. now exists t.
Qed.

End Dispatch.

(** ** The engine on concrete requests *)
Section Runs.

Import Sample GoStrings.

Example boot_is_DefaultEngine :
  DefaultEngine (Some (Ok R1)) (Some tt) EmptyString "ref=x" "bot|crawler"
  = Some (boot EmptyString "bot|crawler").
Proof. reflexivity. Qed.

Example DefaultEngine_nil_storage :
  DefaultEngine None (Some tt) EmptyString "ref=x" "bot" = None.
Proof. reflexivity. Qed.

Example first_reload_succeeds : snd (Reload (boot EmptyString "bot|crawler")) = None.
Proof. vm_compute. reflexivity. Qed.

(** The robot decoration example: a crawler gets the URL as it is, a
    browser gets the parameter, after [&] when the URL has a query. *)
Example crawler_undecorated :
  header_Get (header (fetch plain "GET" "/svc" "Some-Crawler/1.0")) "Location"
  = "http://t.com".
Proof. vm_compute. reflexivity. Qed.

Example browser_decorated :
  header_Get (header (fetch plain "GET" "/svc" "Mozilla/5.0")) "Location"
  = "http://t.com?ref=x".
Proof. vm_compute. reflexivity. Qed.

Example browser_decorated_query :
  header_Get (header (fetch plain "GET" "/q" "Mozilla/5.0")) "Location"
  = "http://t.com?id=1&ref=x".
Proof. vm_compute. reflexivity. Qed.

(** White space that is not ASCII is trimmed as well (U+00A0 here). *)
Example nbsp_is_trimmed :
  TrimSpace (String "194" (String "160" " http://t.com")
             ++ String "194" (String "160" newline))
  = "http://t.com".
Proof. reflexivity. Qed.

(** What [http.Redirect] sends for a URL with a byte outside ASCII, and for
    the decoration of an empty rendering. *)
Example non_ascii_is_escaped :
  hexEscapeNonASCII ("http://t.com/" ++ String "195" (String "169" "?ref=x"))
  = "http://t.com/%c3%a9?ref=x".
Proof. reflexivity. Qed.

Example empty_rendering_resolved : resolve "/e" "?ref=x" = "/?ref=x".
Proof. reflexivity. Qed.

Example not_found_without_default :
  status (fetch plain "GET" "/unknown/path" "Mozilla/5.0") = Some StatusNotFound.
Proof. vm_compute. reflexivity. Qed.


Lemma matched_response_witness :
  status (fetch plain "HEAD" "/svc/" "Mozilla/5.0") = Some StatusOK
  /\ header_Get (header (fetch plain "HEAD" "/svc/" "Mozilla/5.0")) "Location"
     = "http://t.com".
Proof.
  destruct (matched_response plain (request "HEAD" "/svc/" "Mozilla/5.0")
              (Lit " http://t.com ") " http://t.com ") as [Hhead _].
  - vm_compute. reflexivity.
  - reflexivity.
  - destruct (Hhead eq_refl) as (Hs & Hloc & _). split; [exact Hs|exact Hloc].
Defined.

Lemma unmatched_response_witness :
  touches (snd (ServeHTTP homed newResponseWriter
                  (request "POST" "/unknown/path" "Mozilla/5.0"))) = 0
  /\ fetch homed "POST" "/home" "Mozilla/5.0"
     = fetch homed "POST" "/unknown/path" "Mozilla/5.0".
Proof.
  destruct (unmatched_response homed (request "POST" "/unknown/path" "Mozilla/5.0"))
    as (Ht & _ & Hd).
  - vm_compute. reflexivity.
  - split; [exact Ht|].
    apply (Hd ltac:(discriminate) ltac:(discriminate) homed
             (request "POST" "/home" "Mozilla/5.0")
             (Lit "http://home.example") "http://home.example");
      try (vm_compute; reflexivity).
    right. vm_compute. reflexivity.
Defined.

Lemma Redirect_decorates_witness :
  policy_url plain (request "GET" "/q" "Mozilla/5.0") "http://t.com?id=1"
  = "http://t.com?id=1&ref=x".
Proof.
  destruct (Redirect_decorates plain "http://t.com?id=1" newResponseWriter
              (request "GET" "/q" "Mozilla/5.0")) as (_ & _ & Hreg & _).
  destruct Hreg as [Hamp _].
  - vm_compute. reflexivity.
  - discriminate.
  - apply Hamp. reflexivity.
Defined.

Lemma redirect_response_witness :
  status (fetch homed "POST" "/unknown/path" "Mozilla/5.0")
  = Some StatusMovedPermanently
  /\ header_Get (header (fetch homed "POST" "/unknown/path" "Mozilla/5.0"))
       "Content-Length" = "0"
  /\ header_Get (header (fetch homed "POST" "/unknown/path" "Mozilla/5.0"))
       "Location" = "http://home.example?ref=x".
Proof.
  destruct (redirect_response homed (request "POST" "/unknown/path" "Mozilla/5.0")
              "http://home.example") as (Hs & Hc & _ & Hl).
  - apply (resolves_default homed (request "POST" "/unknown/path" "Mozilla/5.0")).
    + vm_compute. reflexivity.
    + discriminate.
  - discriminate.
  - split; [exact Hs|]. split; [exact Hc|].
    etransitivity; [apply Hl; vm_compute; reflexivity|].
    vm_compute. reflexivity.
Defined.

Lemma render_failure_response_witness :
  exists wr calls,
    step plain (Serve (request "GET" "/broken" "Mozilla/5.0"))
    = (plain, Response wr calls)
    /\ status wr = Some StatusInternalServerError.
Proof.
  destruct (render_failure_response plain (request "GET" "/broken" "Mozilla/5.0")
              Missing
              "template: :1:2: can't evaluate field Missing in type *http.Request")
    as (wr & calls & Hstep & Hs & _).
  - vm_compute. reflexivity.
  - reflexivity.
  - exists wr, calls. split; [exact Hstep|exact Hs].
Defined.

Lemma touch_on_hit_only_witness :
  touches (snd (ServeHTTP plain newResponseWriter
                  (request "GET" "/broken" "Mozilla/5.0"))) = 1
  /\ status (fetch plain "GET" "/broken" "Mozilla/5.0")
     = Some StatusInternalServerError.
Proof.
  pose proof (touch_on_hit_only plain (request "GET" "/broken" "Mozilla/5.0")) as H.
  cbv zeta in H.
  change (rules plain !! service_of (request "GET" "/broken" "Mozilla/5.0"))
    with (Some Missing : option Template) in H.
  destruct H as (_ & Ht & Hs). split; [exact Ht|].
  apply (Hs "template: :1:2: can't evaluate field Missing in type *http.Request").
  reflexivity.
Defined.


(** C2, the claim as written fails: a browser's HEAD request for [svc] is
    answered 200 with the bare rendered URL, not with the decorated URL
    that its GET request is redirected to. *)
Lemma head_location_not_decorated :
  status (fetch plain "HEAD" "/svc" "Mozilla/5.0") = Some StatusOK
  /\ header_Get (header (fetch plain "HEAD" "/svc" "Mozilla/5.0")) "Location"
     = "http://t.com"
  /\ header_Get (header (fetch plain "GET" "/svc" "Mozilla/5.0")) "Location"
     = "http://t.com?ref=x"
  /\ header_Get (header (fetch plain "HEAD" "/svc" "Mozilla/5.0")) "Location"
     <> policy_url plain (request "HEAD" "/svc" "Mozilla/5.0") "http://t.com".
Proof. vm_compute. repeat split. discriminate. Qed.

(** C3, the claim as written fails: with the default URL
    [http://home.example], a HEAD request for an unknown path is answered
    301, while a HEAD request matching the rule [home], which renders to
    that URL, is answered 200. *)
Lemma head_default_not_like_rule :
  rules homed !! service_of (request "HEAD" "/unknown/path" "Mozilla/5.0") = None
  /\ rules homed !! service_of (request "HEAD" "/home" "Mozilla/5.0")
     = Some (Lit "http://home.example")
  /\ status (fetch homed "HEAD" "/unknown/path" "Mozilla/5.0")
     = Some StatusMovedPermanently
  /\ status (fetch homed "HEAD" "/home" "Mozilla/5.0") = Some StatusOK
  /\ fetch homed "HEAD" "/unknown/path" "Mozilla/5.0"
     <> fetch homed "HEAD" "/home" "Mozilla/5.0".
Proof.
  split; [vm_compute; reflexivity|]. split; [vm_compute; reflexivity|].
  split; [vm_compute; reflexivity|]. split; [vm_compute; reflexivity|].
  intros Heq. apply (f_equal status) in Heq. vm_compute in Heq. discriminate.
Qed.

(** C4 -- the code at the failing input: the robot substring [Bot] is
    configured and the user-agent contains it, letter for letter, yet the
    client is taken for a regular one, because only the user-agent is
    lower-cased before the comparison. *)
Lemma upper_case_robot_not_detected :
  robots cased = ["Bot"]
  /\ Contains (UserAgent (request "GET" "/svc" "GoogleBot/2.1")) "Bot" = true
  /\ IsRegularUser cased (request "GET" "/svc" "GoogleBot/2.1") = true.
Proof. vm_compute. repeat split. Qed.

(** C7, the claim as written fails: the body of the 500 response is the
    text of the render error and does not name the service key
    [broken]. *)
Lemma failure_body_without_service_key :
  service_of (request "GET" "/broken" "Mozilla/5.0") = "broken"
  /\ status (fetch plain "GET" "/broken" "Mozilla/5.0")
     = Some StatusInternalServerError
  /\ body (fetch plain "GET" "/broken" "Mozilla/5.0")
     = "template: :1:2: can't evaluate field Missing in type *http.Request"
       ++ newline
  /\ Contains (body (fetch plain "GET" "/broken" "Mozilla/5.0")) "broken" = false.
Proof. vm_compute. repeat split. Qed.

(** C6, the claim as written fails: the rule [dir/rel] renders to
    [target], the final URL is [target?ref=x], and the [Location] sent is
    that URL made absolute against the request path. *)
Lemma relative_location_resolved :
  rules relative !! service_of (request "GET" "/dir/rel" "Mozilla/5.0")
  = Some (Lit "target")
  /\ status (fetch relative "GET" "/dir/rel" "Mozilla/5.0")
     = Some StatusMovedPermanently
  /\ policy_url relative (request "GET" "/dir/rel" "Mozilla/5.0") "target"
     = "target?ref=x"
  /\ header_Get (header (fetch relative "GET" "/dir/rel" "Mozilla/5.0")) "Location"
     = "/dir/target?ref=x"
  /\ header_Get (header (fetch relative "GET" "/dir/rel" "Mozilla/5.0")) "Location"
     <> policy_url relative (request "GET" "/dir/rel" "Mozilla/5.0") "target".
Proof. vm_compute. repeat split. discriminate. Qed.


End Runs.


(** * Further properties of the engine *)

(** ** The service key *)
Section ServiceKey.

Context `{GL : Library} `{TL : TemplateLib} `{CO : Collaborators}.
Import GoStrings.

Lemma app_nil_r (s : string) : s ++ EmptyString = s.
Proof.
  induction s as [|c s IH]; [reflexivity|].
  now rewrite app_cons, IH.
Qed.

Lemma trim_left_head (f : ascii -> bool) (s : string) :
  trim_left f s = EmptyString \/
  exists c t, trim_left f s = String c t /\ f c = false.
Proof.
  induction s as [|c s IH]; simpl; [now left|].
  destruct (f c) eqn:Hc; [exact IH|].
  right. now exists c, s.
Qed.

Lemma trim_left_drop (f : ascii -> bool) (c : ascii) (s : string) :
  f c = true -> trim_left f (String c s) = trim_left f s.
Proof. intros Hc; simpl. now rewrite Hc. Qed.

Lemma trim_left_snoc (f : ascii -> bool) (c : ascii) (s : string) :
  f c = true ->
  trim_left f (s ++ String c EmptyString)
  = match trim_left f s with
    | EmptyString => EmptyString
    | t => t ++ String c EmptyString
    end.
Proof.
  intros Hc. induction s as [|a s IH].
  - rewrite app_nil_l; simpl. now rewrite Hc.
  - rewrite app_cons; simpl. now destruct (f a).
Qed.

Lemma trim_right_snoc (f : ascii -> bool) (c : ascii) (s : string) :
  f c = true -> trim_right f (s ++ String c EmptyString) = trim_right f s.
Proof.
  intros Hc. induction s as [|a s IH].
  - rewrite app_nil_l; simpl. now rewrite Hc.
  - rewrite app_cons; simpl. now rewrite IH.
Qed.

(** What [trim_right] keeps begins as the string began. *)
Lemma trim_right_head (f : ascii -> bool) (c : ascii) (s : string) :
  f c = false -> exists t, trim_right f (String c s) = String c t.
Proof.
  intros Hc; simpl. destruct (trim_right f s) as [|a t].
  - rewrite Hc. now exists EmptyString.
  - now exists (String a t).
Qed.

(** What [trim_right] keeps does not end with a byte it trims. *)
Lemma trim_right_last (f : ascii -> bool) (s t : string) (c : ascii) :
  trim_right f s = t ++ String c EmptyString -> f c = false.
Proof.
  revert t; induction s as [|a s IH]; intros t; simpl.
  - destruct t; discriminate.
  - destruct (trim_right f s) as [|b u] eqn:Hr.
    + destruct (f a) eqn:Ha.
      * destruct t; discriminate.
      * destruct t as [|x t].
        -- rewrite app_nil_l. now intros [= <-].
        -- rewrite app_cons. intros [= _ Ht]. destruct t; discriminate.
    + destruct t as [|x t].
      * rewrite app_nil_l. discriminate.
      * rewrite app_cons. intros [= _ Ht]. now apply (IH t).
Qed.

Lemma Trim_no_edge (s cutset : string) :
  (forall c t, Trim s cutset = String c t -> in_cutset c cutset = false) /\
  (forall t c, Trim s cutset = t ++ String c EmptyString -> in_cutset c cutset = false).
Proof.
  unfold Trim. split.
  - intros c t Ht.
    destruct (trim_left_head (fun c => in_cutset c cutset) s) as [He|(a & u & He & Ha)];
      rewrite He in Ht.
    + discriminate.
    + destruct (trim_right_head (fun c => in_cutset c cutset) a u Ha) as [v Hv].
      rewrite Hv in Ht. now injection Ht as <- _.
  - intros t c Ht.
    exact (trim_right_last (fun c => in_cutset c cutset) _ _ _ Ht).
Qed.

Lemma Trim_leading (c : ascii) (s cutset : string) :
  in_cutset c cutset = true -> Trim (String c s) cutset = Trim s cutset.
Proof. intros Hc. unfold Trim. now rewrite trim_left_drop. Qed.

Lemma Trim_trailing (c : ascii) (s cutset : string) :
  in_cutset c cutset = true ->
  Trim (s ++ String c EmptyString) cutset = Trim s cutset.
Proof.
  intros Hc. unfold Trim.
  rewrite (trim_left_snoc (fun c => in_cutset c cutset)) by exact Hc.
  destruct (trim_left (fun c => in_cutset c cutset) s) as [|a u]; [reflexivity|].
  now apply (trim_right_snoc (fun c => in_cutset c cutset)).
Qed.

Lemma service_of_not_slash_ended (rq : Request) : ~ slash_ended (service_of rq).
Proof.
  destruct (Trim_no_edge (URLPath rq) "/") as [Hhead Hlast].
  intros [[t Ht]|[t Ht]].
  - specialize (Hhead "/"%char t Ht). discriminate.
  - specialize (Hlast t "/"%char Ht). discriminate.
Qed.


(** The calls a request makes are about its own service key. *)
Lemma ServeHTTP_calls (eng : engine) (wr : ResponseWriter) (rq : Request) :
  match rules eng !! service_of rq with
  | None => snd (ServeHTTP eng wr rq) = []
  | Some tpl =>
      match Execute tpl rq with
      | Ok _ =>
          snd (ServeHTTP eng wr rq)
          = [CallTouch (service_of rq); CallExecute (service_of rq)]
      | Err err =>
          snd (ServeHTTP eng wr rq)
          = [CallTouch (service_of rq); CallExecute (service_of rq);
             CallLog ("engine: failed execute template for service "
                      ++ service_of rq ++ " : " ++ err)]
      end
  end.
Proof.
  unfold ServeHTTP, service_of.
  destruct (rules eng !! Trim (URLPath rq) "/") as [tpl|].
  - destruct (Execute tpl rq); [|reflexivity].
    now destruct (String.eqb (Method rq) "HEAD").
  - now destruct (negb (String.eqb (defaultUrl eng) EmptyString)).
Qed.

(** X4 -- [Touch] is only ever called with a key that is in the rule
    table, and that key is the service key of the request; so a rule stored
    under a key that begins or ends with a slash is never counted (and
    never rendered), whatever is requested. *)
Theorem touch_only_table_keys (eng : engine) (wr : ResponseWriter)
    (rq : Request) (k : string) :
  In (CallTouch k) (snd (ServeHTTP eng wr rq)) \/
  In (CallExecute k) (snd (ServeHTTP eng wr rq)) ->
  k = service_of rq /\ is_Some (rules eng !! k) /\ ~ slash_ended k.
Proof.
  intros Hin.
  assert (k = service_of rq /\ is_Some (rules eng !! k)) as [-> Hk].
  { pose proof (ServeHTTP_calls eng wr rq) as Hc.
    destruct (rules eng !! service_of rq) as [tpl|] eqn:Hl.
    - assert (k = service_of rq) as ->.
      { destruct (Execute tpl rq); rewrite Hc in Hin; simpl in Hin;
          destruct Hin as [Hin|Hin];
          repeat (destruct Hin as [Hin|Hin]; [congruence|]); destruct Hin. }
      rewrite Hl. now split.
    - rewrite Hc in Hin. destruct Hin as [[]|[]]. }
  split; [reflexivity|]. split; [exact Hk|].
  apply service_of_not_slash_ended.
Qed.

End ServiceKey.

(** ** The shape of every response *)
Section Responses.

Context `{GL : Library} `{TL : TemplateLib} `{CO : Collaborators}.
Import GoStrings.

(** The status of the response, case by case. *)
Lemma ServeHTTP_status (eng : engine) (rq : Request) :
  status (fst (ServeHTTP eng newResponseWriter rq))
  = Some match rules eng !! service_of rq with
         | None =>
             if String.eqb (defaultUrl eng) EmptyString
             then StatusNotFound else StatusMovedPermanently
         | Some tpl =>
             match Execute tpl rq with
             | Err _ => StatusInternalServerError
             | Ok _ =>
                 if String.eqb (Method rq) "HEAD"
                 then StatusOK else StatusMovedPermanently
             end
         end.
Proof.
  destruct (rules eng !! service_of rq) as [tpl|] eqn:Hl.
  - destruct (Execute tpl rq) as [out|err] eqn:He.
    + rewrite (ServeHTTP_rendered _ _ _ _ _ Hl He).
      destruct (String.eqb (Method rq) "HEAD"); simpl; [reflexivity|].
      now apply Redirect_status_301.
    + now rewrite (ServeHTTP_render_error _ _ _ _ _ Hl He).
  - destruct (String.eqb_spec (defaultUrl eng) EmptyString) as [Hd|Hd].
    + now rewrite (ServeHTTP_not_found _ _ _ Hl Hd).
    + rewrite (ServeHTTP_default _ _ _ Hl Hd). simpl.
      now apply Redirect_status_301.
Qed.

(** X1 -- Every request is answered, with one of four statuses: 404
    exactly when no rule matches and no default URL is configured, 500
    exactly when the matched rule fails to render, 200 exactly for a HEAD
    request whose matched rule renders, and 301 in the remaining cases (a
    miss with a default URL, or a rendered rule and a method other than
    HEAD). *)
Theorem status_classification (eng : engine) (rq : Request) :
  let wr := fst (ServeHTTP eng newResponseWriter rq) in
  let hit := rules eng !! service_of rq in
  (status wr = Some StatusNotFound <->
   hit = None /\ defaultUrl eng = EmptyString) /\
  (status wr = Some StatusInternalServerError <->
   exists tpl err, hit = Some tpl /\ Execute tpl rq = Err err) /\
  (status wr = Some StatusOK <->
   exists tpl out, hit = Some tpl /\ Execute tpl rq = Ok out /\ Method rq = "HEAD") /\
  (status wr = Some StatusMovedPermanently <->
   (hit = None /\ defaultUrl eng <> EmptyString) \/
   (exists tpl out, hit = Some tpl /\ Execute tpl rq = Ok out /\ Method rq <> "HEAD")).
Proof.
  cbv zeta. rewrite ServeHTTP_status.
  unfold StatusOK, StatusMovedPermanently, StatusNotFound,
    StatusInternalServerError.
  destruct (rules eng !! service_of rq) as [tpl|];
    [destruct (Execute tpl rq) as [out|err] eqn:He;
     [destruct (String.eqb_spec (Method rq) "HEAD") as [Hm|Hm]|]
    |destruct (String.eqb_spec (defaultUrl eng) EmptyString) as [Hd|Hd]];
    repeat split; intros;
    repeat match goal with
           | H : _ /\ _ |- _ => destruct H
           | H : _ \/ _ |- _ => destruct H
           | H : exists _, _ |- _ => destruct H
           end;
    try congruence;
    try (exfalso;
         match goal with
         | H : Some _ = Some _ |- _ => injection H; intros; lia
         end);
    eauto 10.
Qed.

Lemma Redirect_Location_set (w : ResponseWriter) (r : Request) (url : string)
    (code : nat) :
  header (NetHTTP.Redirect w r url code) !! "Location"
  = Some [hexEscapeNonASCII (redirectURL (URLPath r) url)].
Proof.
  unfold NetHTTP.Redirect.
  repeat match goal with
         | |- context [if ?b then _ else _] => destruct b
         end;
    rewrite ?header_Write, ?header_WriteHeader; simpl; unfold header_Set;
    rewrite ?lookup_insert_ne by discriminate;
    apply lookup_insert_eq.
Qed.

(** X2 -- The [Location] header is in the response exactly when its status
    is 200 or 301, and then it has one value; a 404 or 500 response never
    has it. *)
Theorem location_only_on_success (eng : engine) (rq : Request) :
  let wr := fst (ServeHTTP eng newResponseWriter rq) in
  (status wr = Some StatusOK \/ status wr = Some StatusMovedPermanently ->
   exists url, header wr !! "Location" = Some [url]) /\
  (status wr = Some StatusNotFound \/ status wr = Some StatusInternalServerError ->
   header wr !! "Location" = None).
Proof.
  cbv zeta. rewrite ServeHTTP_status.
  destruct (rules eng !! service_of rq) as [tpl|] eqn:Hl.
  - destruct (Execute tpl rq) as [out|err] eqn:He.
    + rewrite (ServeHTTP_rendered _ _ _ _ _ Hl He).
      destruct (String.eqb (Method rq) "HEAD"); simpl; split;
        try (intros [?|?]; discriminate); intros _; eexists.
      * reflexivity.
      * apply Redirect_Location_set.
    + rewrite (ServeHTTP_render_error _ _ _ _ _ Hl He). simpl. split.
      * intros [?|?]; discriminate.
      * intros _. reflexivity.
  - destruct (String.eqb_spec (defaultUrl eng) EmptyString) as [Hd|Hd].
    + rewrite (ServeHTTP_not_found _ _ _ Hl Hd). simpl. split.
      * intros [?|?]; discriminate.
      * intros _. reflexivity.
    + rewrite (ServeHTTP_default _ _ _ Hl Hd). simpl. split.
      * intros _. eexists. apply Redirect_Location_set.
      * intros [?|?]; discriminate.
Qed.

End Responses.

(** ** More on reloading *)
Section Reloading.

Context `{GL : Library} `{TL : TemplateLib} `{CO : Collaborators}.

Lemma compiles_or_fails (rule : Rule) : compiles rule \/ fails_to_compile rule.
Proof.
  unfold compiles, fails_to_compile.
  destruct (Parse (LocationTemplate rule)) as [t|err]; eauto.
Qed.

(** A loop that ends with a table has compiled every rule. *)
Lemma compile_rules_Ok_inv (rs : list Rule) (swap tbl : gmap string Template) :
  compile_rules rs swap = Ok tbl -> Forall compiles rs.
Proof.
  revert swap; induction rs as [|rule rest IH]; intros swap; simpl.
  - constructor.
  - destruct (Parse (LocationTemplate rule)) as [t|err] eqn:Hp; [|discriminate].
    intros Hc. constructor; [now exists t|]. exact (IH _ Hc).
Qed.

(** The error of the loop is that of the first rule that fails. *)
Lemma compile_rules_first_bad (rs : list Rule) (swap : gmap string Template) (msg : string) :
  compile_rules rs swap = Err msg ->
  exists pre rule post err,
    rs = (pre ++ rule :: post)%list /\ Forall compiles pre /\
    Parse (LocationTemplate rule) = Err err /\
    msg = "engine: parse rule for url " ++ URL rule ++ ": " ++ err.
Proof.
  revert swap; induction rs as [|rule rest IH]; intros swap; simpl; [discriminate|].
  destruct (Parse (LocationTemplate rule)) as [t|err] eqn:Hp.
  - intros Hc. destruct (IH _ Hc) as (pre & r & post & e & -> & Hpre & He & ->).
    exists (rule :: pre), r, post, e. repeat split; auto.
    constructor; [now exists t|exact Hpre].
  - intros [= <-]. exists [], rule, rest, err. repeat split; auto.
Qed.

(** The table a successful reload installs. *)
Lemma Reload_table (eng : engine) (rs : list Rule) :
  All (storage eng) = Ok rs -> Forall compiles rs ->
  snd (Reload eng) = None /\
  forall k, rules (fst (Reload eng)) !! k = table_of rs k.
Proof.
  intros Hall Hc. unfold Reload. rewrite Hall.
  destruct (compile_rules_all rs ∅ Hc) as (swap & -> & Hk). simpl.
  split; [reflexivity|]. intros k. rewrite Hk, lookup_empty.
  now destruct (table_of rs k).
Qed.

Lemma table_of_Some (rs : list Rule) (k : string) :
  Forall compiles rs ->
  is_Some (table_of rs k) <-> exists rule, In rule rs /\ URL rule = k.
Proof.
  intros Hc. unfold table_of. split.
  - destruct (last_rule rs k) as [rule|] eqn:Hl.
    + intros _. exists rule. exact (last_rule_In rs k rule Hl).
    + intros [? ?]; discriminate.
  - intros (rule & Hin & Hk).
    destruct (last_rule rs k) as [r|] eqn:Hl.
    + destruct (last_rule_In rs k r Hl) as [Hin' _].
      destruct (proj1 (List.Forall_forall compiles rs) Hc r Hin') as [t ->].
      now exists t.
    + exfalso. exact (proj1 (last_rule_None rs k) Hl rule Hin Hk).
Qed.

(** X5 -- A successful reload replaces the table, it does not merge into
    it: afterwards a key resolves exactly when some fetched rule has that
    key, so the keys of rules that are no longer stored are gone, whatever
    the table held before. *)
Theorem reload_replaces_keys (eng : engine) (rs : list Rule) (k : string) :
  All (storage eng) = Ok rs -> Forall compiles rs ->
  is_Some (rules (fst (Reload eng)) !! k) <-> exists rule, In rule rs /\ URL rule = k.
Proof.
  intros Hall Hc.
  destruct (Reload_table eng rs Hall Hc) as [_ Hk].
  rewrite Hk. now apply table_of_Some.
Qed.

Lemma with_rules_twice (eng : engine) (a b : gmap string Template) :
  with_rules (with_rules eng a) b = with_rules eng b.
Proof. reflexivity. Qed.

(** X6 -- Reloading builds the table from the stored rules alone: two
    engines over the same storage get the same error or the same table
    whatever their tables were before, and reloading again right after a
    reload changes nothing and returns the same result. *)
Theorem reload_from_scratch (eng : engine) :
  (forall eng' : engine,
      storage eng' = storage eng ->
      snd (Reload eng') = snd (Reload eng) /\
      (snd (Reload eng) = None ->
       rules (fst (Reload eng')) = rules (fst (Reload eng)))) /\
  Reload (fst (Reload eng)) = Reload eng.
Proof.
  split.
  - intros eng' Hs. unfold Reload. rewrite Hs.
    destruct (All (storage eng)) as [rs|err]; simpl; [|split; [reflexivity|discriminate]].
    destruct (compile_rules rs ∅); simpl; split; auto; discriminate.
  - unfold Reload.
    destruct (All (storage eng)) as [rs|err] eqn:Hall; simpl.
    + destruct (compile_rules rs ∅) as [swap|err] eqn:Hc; simpl.
      * now rewrite Hall, Hc.
      * now rewrite Hall, Hc.
    + now rewrite Hall.
Qed.

(** X7 -- A reload that fails on a template reports the first rule, in the
    order of the fetched set, whose template does not compile: every rule
    before it compiled, and the error names its key and carries the
    parser's message. *)
Theorem reload_reports_first_failure (eng : engine) (rs : list Rule) :
  All (storage eng) = Ok rs -> Exists fails_to_compile rs ->
  exists pre rule post err,
    rs = (pre ++ rule :: post)%list /\ Forall compiles pre /\
    Parse (LocationTemplate rule) = Err err /\
    Reload eng
    = (eng, Some ("engine: parse rule for url " ++ URL rule ++ ": " ++ err)).
Proof.
  intros Hall Hex. unfold Reload. rewrite Hall.
  destruct (compile_rules rs ∅) as [swap|msg] eqn:Hc.
  - exfalso. apply compile_rules_Ok_inv in Hc.
    apply List.Exists_exists in Hex as (rule & Hin & [err He]).
    destruct (proj1 (List.Forall_forall compiles rs) Hc rule Hin) as [t Ht].
    congruence.
  - destruct (compile_rules_first_bad rs ∅ msg Hc) as (pre & r & post & e & H1 & H2 & H3 & ->).
    exists pre, r, post, e. auto.
Qed.

Lemma last_rule_unique (rs : list Rule) (rule : Rule) :
  List.NoDup (map URL rs) -> In rule rs -> last_rule rs (URL rule) = Some rule.
Proof.
  induction rs as [|a rest IH]; simpl; [intros _ []|].
  intros Hnd Hin. apply List.NoDup_cons_iff in Hnd as [Ha Hnd].
  destruct Hin as [->|Hin].
  - destruct (last_rule rest (URL rule)) as [r|] eqn:Hl.
    + destruct (last_rule_In rest _ r Hl) as [Hin Hk].
      exfalso. apply Ha. rewrite <- Hk. now apply in_map.
    + now rewrite String.eqb_refl.
  - now rewrite (IH Hnd Hin).
Qed.

Lemma table_of_Permutation (rs rs' : list Rule) (k : string) :
  Permutation rs rs' -> List.NoDup (map URL rs) -> table_of rs k = table_of rs' k.
Proof.
  intros Hp Hnd.
  assert (List.NoDup (map URL rs')) as Hnd'
    by (eapply Permutation_NoDup; [apply Permutation_map; exact Hp|exact Hnd]).
  unfold table_of.
  destruct (last_rule rs k) as [r|] eqn:Hl.
  - destruct (last_rule_In rs k r Hl) as [Hin <-].
    assert (In r rs') as Hin' by (eapply Permutation_in; eauto).
    now rewrite (last_rule_unique rs' r Hnd' Hin').
  - assert (last_rule rs' k = None) as ->; [|reflexivity].
    apply last_rule_None. intros r Hin.
    apply (proj1 (last_rule_None rs k) Hl).
    eapply Permutation_in; [apply Permutation_sym; exact Hp|exact Hin].
Qed.

(** X8 -- When the stored rules have distinct keys, the order in which the
    storage hands them out does not matter: two reloads over rule sets that
    are permutations of each other succeed together and install the same
    table. *)
Theorem reload_order_irrelevant (eng eng' : engine) (rs rs' : list Rule) :
  All (storage eng) = Ok rs -> All (storage eng') = Ok rs' ->
  Permutation rs rs' -> List.NoDup (map URL rs) -> Forall compiles rs ->
  snd (Reload eng) = None /\ snd (Reload eng') = None /\
  rules (fst (Reload eng)) = rules (fst (Reload eng')).
Proof.
  intros Hall Hall' Hp Hnd Hc.
  assert (Forall compiles rs') as Hc'.
  { apply List.Forall_forall. intros r Hin.
    apply (proj1 (List.Forall_forall compiles rs) Hc).
    eapply Permutation_in; [apply Permutation_sym; exact Hp|exact Hin]. }
  destruct (Reload_table eng rs Hall Hc) as [He Hk].
  destruct (Reload_table eng' rs' Hall' Hc') as [He' Hk'].
  split; [exact He|]. split; [exact He'|].
  apply map_eq. intros k. rewrite Hk, Hk'. now apply table_of_Permutation.
Qed.

End Reloading.

(** ** The engine over a run of requests and reloads *)
Section Runs2.

Context `{GL : Library} `{TL : TemplateLib} `{CO : Collaborators}.
Import GoStrings.

Lemma with_rules_same (eng : engine) : with_rules eng (rules eng) = eng.
Proof. now destruct eng. Qed.

Lemma step_rules_only (eng : engine) (i : Input) :
  fst (step eng i) = with_rules eng (rules (fst (step eng i))).
Proof.
  destruct i as [rq|]; simpl.
  - destruct (ServeHTTP eng newResponseWriter rq); simpl.
    now rewrite with_rules_same.
  - unfold Reload. destruct (All (storage eng)) as [rs|err]; simpl.
    + destruct (compile_rules rs ∅); simpl; [reflexivity|].
      now rewrite with_rules_same.
    + now rewrite with_rules_same.
Qed.

(** X13 -- Nothing but the rule table ever changes: after any run of
    requests and reloads the engine is the engine it started as, with
    another table at most; storage, sink, default URL, query parameter and
    robots are those it was built with. *)
Theorem run_changes_rules_only (inputs : list Input) (eng : engine) :
  fst (run eng inputs) = with_rules eng (rules (fst (run eng inputs))).
Proof.
  revert eng; induction inputs as [|i rest IH]; intros eng; simpl.
  - now rewrite with_rules_same.
  - pose proof (step_rules_only eng i) as Hs.
    destruct (step eng i) as [eng1 o]; simpl in Hs.
    specialize (IH eng1). destruct (run eng1 rest) as [eng2 os]; simpl in *.
    rewrite IH, Hs. reflexivity.
Qed.

Lemma step_generation (eng0 eng : engine) (i : Input) :
  generation_of eng0 eng -> generation_of eng0 (fst (step eng i)).
Proof.
  intros [Hs Hg]. destruct i as [rq|]; simpl.
  - destruct (ServeHTTP eng newResponseWriter rq); simpl. now split.
  - unfold Reload. destruct (All (storage eng)) as [rs|err] eqn:Hall; simpl.
    + destruct (compile_rules rs ∅) as [swap|err] eqn:Hc; simpl.
      * split; [exact Hs|]. right. exists rs.
        pose proof (compile_rules_Ok_inv rs ∅ swap Hc) as Hall'.
        split; [now rewrite <- Hs|]. split; [exact Hall'|].
        destruct (compile_rules_all rs ∅ Hall') as (tbl & Ht & Hk).
        assert (tbl = swap) as -> by congruence.
        intros k. rewrite Hk, lookup_empty. now destruct (table_of rs k).
      * now split.
    + now split.
Qed.

(** X14 -- Over any run of requests and reloads the rule table is one
    whole generation: either the table the engine started with, or exactly
    the table of the stored rule set, all of whose rules compile.  No run
    leaves a table that has part of a rule set in it. *)
Theorem table_generations (inputs : list Input) (eng : engine) :
  let eng' := fst (run eng inputs) in
  rules eng' = rules eng \/
  exists rs, All (storage eng) = Ok rs /\ Forall compiles rs /\
             forall k, rules eng' !! k = table_of rs k.
Proof.
  cbv zeta.
  assert (forall e, generation_of eng e -> generation_of eng (fst (run e inputs)))
    as Hrun.
  { induction inputs as [|i rest IH]; intros e He; simpl; [exact He|].
    pose proof (step_generation eng e i He) as Hs.
    destruct (step e i) as [e1 o]; simpl in Hs.
    specialize (IH e1 Hs). destruct (run e1 rest) as [e2 os]. exact IH. }
  destruct (Hrun eng) as [_ H]; [split; auto|exact H].
Qed.

(** X15 -- [DefaultEngine] refuses a nil storage or sink, and the engine it
    builds has no rules until [Reload] is called: it answers every request
    with 404, or with the redirect to the default URL when one is
    configured, and calls neither the sink nor the renderer. *)
Theorem fresh_engine_has_no_rules (st : option Storage) (sk : option StatWriter)
    (d p r : string) :
  match DefaultEngine st sk d p r with
  | None => st = None \/ sk = None
  | Some eng =>
      is_Some st /\ is_Some sk /\
      forall rq,
        snd (ServeHTTP eng newResponseWriter rq) = [] /\
        status (fst (ServeHTTP eng newResponseWriter rq))
        = Some (if String.eqb d EmptyString
                then StatusNotFound else StatusMovedPermanently)
  end.
Proof.
  destruct st as [st|], sk as [sk|]; simpl; auto.
  split; [eauto|]. split; [eauto|]. intros rq.
  unfold ServeHTTP; simpl. rewrite lookup_empty.
  destruct (String.eqb d EmptyString); simpl; split; try reflexivity.
  now apply Redirect_status_301.
Qed.

(** X16 -- The engine logs exactly when a matched rule fails to render,
    and the line it logs names the service key and carries the render
    error; a response that is not a render failure logs nothing. *)
Theorem log_only_on_render_failure (eng : engine) (wr : ResponseWriter) (rq : Request) :
  (forall line, In (CallLog line) (snd (ServeHTTP eng wr rq)) ->
     exists tpl err,
       rules eng !! service_of rq = Some tpl /\ Execute tpl rq = Err err /\
       Contains line (service_of rq) = true /\ Contains line err = true) /\
  (forall tpl err,
     rules eng !! service_of rq = Some tpl -> Execute tpl rq = Err err ->
     exists line, In (CallLog line) (snd (ServeHTTP eng wr rq))).
Proof.
  pose proof (ServeHTTP_calls eng wr rq) as Hc. split.
  - intros line Hin.
    destruct (rules eng !! service_of rq) as [tpl|].
    + destruct (Execute tpl rq) as [out|err] eqn:He; rewrite Hc in Hin; simpl in Hin.
      * destruct Hin as [|[|[]]]; discriminate.
      * destruct Hin as [|[|[[= <-]|[]]]]; try discriminate.
        exists tpl, err. repeat split; try assumption.
        -- apply Contains_iff. eexists _, _. reflexivity.
        -- apply Contains_iff.
           exists ("engine: failed execute template for service "
                   ++ service_of rq ++ " : "), EmptyString.
           now rewrite app_nil_r, !append_assoc.
    + rewrite Hc in Hin. destruct Hin.
  - intros tpl err Hl He. rewrite Hl, He in Hc. rewrite Hc.
    eexists. simpl. eauto.
Qed.

End Runs2.

(** ** More on the redirect policy *)
Section Policy2.

Context `{GL : Library} `{TL : TemplateLib} `{CO : Collaborators}.
Import GoStrings.

Lemma Contains_ToLowerASCII (s v : string) :
  Contains s v = true -> Contains (ToLowerASCII s) (ToLowerASCII v) = true.
Proof.
  intros H. apply Contains_iff in H as (a & b & ->).
  apply Contains_iff. exists (ToLowerASCII a), (ToLowerASCII b).
  now rewrite !ToLowerASCII_app.
Qed.

(** X9 -- A robot substring configured in lower case is found in an ASCII
    user-agent in any letter case: when the user-agent is all ASCII and
    contains a string that is not empty and whose lower-cased form is
    configured, the client is not a regular one. *)
Theorem robot_found_in_any_case (eng : engine) (rq : Request) (v : string) :
  v <> EmptyString ->
  is_ascii (UserAgent rq) = true ->
  In (ToLowerASCII v) (robots eng) ->
  Contains (UserAgent rq) v = true ->
  IsRegularUser eng rq = false.
Proof.
  intros Hv Ha Hin Hc. unfold IsRegularUser.
  rewrite (ToLower_ascii _ Ha).
  apply no_robot_in_false_iff. exists (ToLowerASCII v).
  split; [exact Hin|]. split.
  - destruct v; [congruence|discriminate].
  - now apply Contains_ToLowerASCII.
Qed.

(** X10 -- Only the set of configured robot substrings that are not empty
    matters to the robot check: their order, repetitions and empty entries
    (as a doubled or trailing [|] in the configuration leaves them) make no
    difference. *)
Theorem robots_as_a_set (eng eng' : engine) (rq : Request) :
  (forall robot, robot <> EmptyString ->
                 (In robot (robots eng) <-> In robot (robots eng'))) ->
  IsRegularUser eng rq = IsRegularUser eng' rq.
Proof.
  intros Hset. unfold IsRegularUser.
  destruct (no_robot_in (ToLower (UserAgent rq)) (robots eng)) eqn:E;
    destruct (no_robot_in (ToLower (UserAgent rq)) (robots eng')) eqn:E';
    try reflexivity.
  - apply no_robot_in_false_iff in E' as (robot & Hin & Hne & Hc).
    rewrite (proj1 (no_robot_in_true_iff _ _) E robot) in Hc;
      [discriminate|now apply Hset|exact Hne].
  - apply no_robot_in_false_iff in E as (robot & Hin & Hne & Hc).
    rewrite (proj1 (no_robot_in_true_iff _ _) E' robot) in Hc;
      [discriminate|now apply Hset|exact Hne].
Qed.

Lemma split_loop_nonempty (sep cur s : string) (skip : nat) :
  split_loop sep skip cur s <> [].
Proof.
  revert skip cur; induction s as [|c s IH]; intros skip cur;
    cbn [split_loop]; [discriminate|].
  destruct skip; [|apply IH].
  destruct (HasPrefix (String c s) sep); [discriminate|apply IH].
Qed.

Lemma Join_cons (field : string) (rest : list string) (sep : string) :
  rest <> [] -> Join (field :: rest) sep = field ++ sep ++ Join rest sep.
Proof. destruct rest; [congruence|reflexivity]. Qed.

Lemma in_cutset_app (c : ascii) (a b : string) :
  in_cutset c (a ++ b) = in_cutset c a || in_cutset c b.
Proof.
  induction a as [|x a IH]; [reflexivity|].
  rewrite app_cons; simpl. now rewrite IH, orb_assoc.
Qed.

(** Splitting on a one-byte separator, and joining again. *)
Lemma split_loop_byte (c : ascii) (s cur : string) :
  in_cutset c cur = false ->
  Join (split_loop (String c EmptyString) 0 cur s) (String c EmptyString) = cur ++ s /\
  Forall (fun field => in_cutset c field = false)
         (split_loop (String c EmptyString) 0 cur s).
Proof.
  revert cur; induction s as [|a s IH]; intros cur Hcur.
  - simpl. split; [now rewrite app_nil_r|]. now constructor.
  - cbn [split_loop HasPrefix String.length Nat.sub].
    destruct (Ascii.eqb_spec a c) as [->|Hne].
    + rewrite HasPrefix_nil.
      destruct (IH EmptyString eq_refl) as [Hj Hf].
      split; [|now constructor].
      rewrite Join_cons by apply split_loop_nonempty.
      rewrite Hj. reflexivity.
    + destruct (IH (cur ++ String a EmptyString)) as [Hj Hf].
      { rewrite in_cutset_app, Hcur. simpl.
        rewrite orb_false_r. apply Ascii.eqb_neq. congruence. }
      split; [|exact Hf]. rewrite Hj. now rewrite append_assoc.
Qed.

(** X11 -- The robots list of a new engine is its robots configuration cut
    at each [|]: it is never empty, no entry has a [|] in it, and joining
    the entries with [|] gives the configuration back. *)
Theorem robots_split_roundtrip (st : Storage) (sk : StatWriter) (d p r : string) :
  exists eng,
    DefaultEngine (Some st) (Some sk) d p r = Some eng /\
    robots eng <> [] /\
    Forall (fun robot => Contains robot "|" = false) (robots eng) /\
    Join (robots eng) "|" = r.
Proof.
  eexists. split; [reflexivity|]. simpl.
  change (Split r "|") with (split_loop "|" 0 EmptyString r).
  destruct (split_loop_byte "|"%char r EmptyString eq_refl) as [Hj Hf].
  split; [apply split_loop_nonempty|]. split; [|exact Hj].
  eapply List.Forall_impl; [|exact Hf]. intros field Hfield; simpl in Hfield.
  destruct (Contains field "|") eqn:Hc; [|reflexivity].
  apply Contains_iff in Hc as (a & b & ->).
  rewrite !in_cutset_app in Hfield. simpl in Hfield.
  rewrite orb_true_r in Hfield. discriminate.
Qed.

(** X12 -- Decoration only appends: the URL [ProcessRegularUserUrl]
    returns begins with the URL it was given, and with a query parameter
    configured it contains a [?] and ends with the parameter, so the
    parameter always lands in the query part that the URL had or gets. *)
Theorem decoration_appends (eng : engine) (url : string) :
  HasPrefix (ProcessRegularUserUrl eng url) url = true /\
  (urlParameter eng <> EmptyString ->
   Contains (ProcessRegularUserUrl eng url) "?" = true /\
   exists front, ProcessRegularUserUrl eng url = front ++ urlParameter eng /\
                 (front = url ++ "&" \/ front = url ++ "?")).
Proof.
  unfold ProcessRegularUserUrl. split.
  - destruct (String.eqb (urlParameter eng) EmptyString).
    + apply HasPrefix_iff. exists EmptyString. now rewrite app_nil_r.
    + destruct (Contains url "?"); apply HasPrefix_app.
  - intros Hp. apply String.eqb_neq in Hp as ->.
    destruct (Contains url "?") eqn:Hq.
    + split.
      * apply Contains_iff in Hq as (a & b & ->). apply Contains_iff.
        exists a, (b ++ "&" ++ urlParameter eng). now rewrite !append_assoc.
      * exists (url ++ "&"). split; [now rewrite append_assoc|now left].
    + split.
      * apply Contains_iff. exists url, (urlParameter eng). reflexivity.
      * exists (url ++ "?"). split; [now rewrite append_assoc|now right].
Qed.

End Policy2.

(** ** From the storage to the response *)
Section EndToEnd.

Context `{GL : Library} `{TL : TemplateLib} `{CO : Collaborators}.
Import GoStrings.

Lemma rev_append_app (s acc : string) : rev_append s acc = reverse s ++ acc.
Proof.
  unfold reverse. revert acc; induction s as [|c s IH]; intros acc; simpl.
  - reflexivity.
  - rewrite (IH (String c acc)), (IH (String c EmptyString)).
    now rewrite append_assoc.
Qed.

Lemma reverse_cons (c : ascii) (s : string) :
  reverse (String c s) = reverse s ++ String c EmptyString.
Proof. unfold reverse at 1. simpl. apply rev_append_app. Qed.

Lemma reverse_app (a b : string) : reverse (a ++ b) = reverse b ++ reverse a.
Proof.
  induction a as [|c a IH].
  - rewrite app_nil_l. now rewrite app_nil_r.
  - rewrite app_cons, !reverse_cons, IH. now rewrite append_assoc.
Qed.

Lemma reverse_involutive (s : string) : reverse (reverse s) = s.
Proof.
  induction s as [|c s IH]; [reflexivity|].
  rewrite reverse_cons, reverse_app, IH. reflexivity.
Qed.

(** What is left after the trimming at the front begins with no
    white-space rune. *)
Lemma trim_left_space_done (s : string) :
  starts_with_space (trim_left_space s) = false.
Proof.
  remember (String.length s) as n eqn:Hn.
  assert (String.length s <= n) as Hle by lia. clear Hn.
  revert s Hle; induction n as [|n IH]; intros s Hle.
  - destruct s; [reflexivity|simpl in Hle; lia].
  - destruct s as [|a s1]; [reflexivity|]. simpl in Hle.
    cbn [trim_left_space].
    destruct (is_space a) eqn:Ha; [apply IH; lia|].
    destruct s1 as [|b s2];
      [cbn [starts_with_space]; now rewrite Ha|]. simpl in Hle.
    destruct (is_space2 a b) eqn:Hb; [apply IH; lia|].
    destruct s2 as [|c s3];
      [cbn [starts_with_space]; now rewrite Ha, Hb|]. simpl in Hle.
    destruct (is_space3 a b c) eqn:Hc; [apply IH; lia|].
    cbn [starts_with_space]. now rewrite Ha, Hb, Hc.
Qed.

(** The same at the end, on the string given with its last byte first;
    and what is left is the string without some of its first bytes. *)
Lemma trim_right_space_rev_done (r : string) :
  ends_with_space_rev (trim_right_space_rev r) = false /\
  exists dropped, r = dropped ++ trim_right_space_rev r.
Proof.
  remember (String.length r) as n eqn:Hn.
  assert (String.length r <= n) as Hle by lia. clear Hn.
  revert r Hle; induction n as [|n IH]; intros r Hle.
  - destruct r; [|simpl in Hle; lia]. split; [reflexivity|].
    now exists EmptyString.
  - destruct r as [|c r1].
    { split; [reflexivity|]. now exists EmptyString. }
    simpl in Hle. cbn [trim_right_space_rev].
    destruct (is_space c) eqn:Hc.
    { destruct (IH r1 ltac:(lia)) as [Hd [dropped Hdrop]]. split; [exact Hd|].
      exists (String c dropped). now rewrite app_cons, <- Hdrop. }
    destruct r1 as [|b r2].
    { split; [cbn [ends_with_space_rev]; now rewrite Hc|]. now exists EmptyString. }
    simpl in Hle.
    destruct (is_space2 b c) eqn:Hb.
    { destruct (IH r2 ltac:(lia)) as [Hd [dropped Hdrop]]. split; [exact Hd|].
      exists (String c (String b dropped)). now rewrite !app_cons, <- Hdrop. }
    destruct r2 as [|a r3].
    { split; [cbn [ends_with_space_rev]; now rewrite Hc, Hb|].
      now exists EmptyString. }
    simpl in Hle.
    destruct (is_space3 a b c) eqn:Ha.
    { destruct (IH r3 ltac:(lia)) as [Hd [dropped Hdrop]]. split; [exact Hd|].
      exists (String c (String b (String a dropped))).
      now rewrite !app_cons, <- Hdrop. }
    split; [cbn [ends_with_space_rev]; now rewrite Hc, Hb, Ha|].
    now exists EmptyString.
Qed.

(** A string that begins with a white-space rune still does with more
    behind it. *)
Lemma starts_with_space_app (p q : string) :
  starts_with_space p = true -> starts_with_space (p ++ q) = true.
Proof.
  destruct p as [|a p1]; [discriminate|]. rewrite app_cons.
  cbn [starts_with_space]. destruct (is_space a); [reflexivity|].
  destruct p1 as [|b p2]; [discriminate|]. rewrite app_cons.
  destruct (is_space2 a b); [reflexivity|].
  destruct p2 as [|c p3]; [discriminate|]. rewrite app_cons.
  now destruct (is_space3 a b c).
Qed.

(** [TrimSpace] leaves no white-space rune at either end. *)
Lemma TrimSpace_done (s : string) :
  starts_with_space (TrimSpace s) = false /\
  ends_with_space_rev (reverse (TrimSpace s)) = false.
Proof.
  unfold TrimSpace.
  destruct (trim_right_space_rev_done (reverse (trim_left_space s)))
    as [Hend [dropped Hdrop]].
  split.
  - destruct (starts_with_space
                (reverse (trim_right_space_rev (reverse (trim_left_space s)))))
      eqn:E; [|reflexivity].
    pose proof (trim_left_space_done s) as Hstart.
    rewrite <- (reverse_involutive (trim_left_space s)), Hdrop, reverse_app in Hstart.
    rewrite (starts_with_space_app _ (reverse dropped) E) in Hstart.
    discriminate.
  - now rewrite reverse_involutive.
Qed.

Lemma decorated_prefix (eng : engine) (rq : Request) (url : string) :
  HasPrefix (policy_url eng rq url) url = true.
Proof.
  unfold policy_url, ProcessRegularUserUrl.
  assert (HasPrefix url url = true) as Hrefl.
  { apply HasPrefix_iff. exists EmptyString. now rewrite app_nil_r. }
  destruct (IsRegularUser eng rq); [|exact Hrefl].
  destruct (String.eqb (urlParameter eng) EmptyString); [exact Hrefl|].
  destruct (Contains url "?"); apply HasPrefix_app.
Qed.

(** X17 -- White space around what a template renders is stripped before
    the URL is used: the trimmed output begins and ends with no white-space
    rune of [unicode.IsSpace]; it is the [Location] of a HEAD response, and
    for any other method the URL handed to [http.Redirect] begins with
    it. *)
Theorem rendered_url_is_trimmed (eng : engine) (rq : Request)
    (tpl : Template) (out : string) :
  rules eng !! service_of rq = Some tpl ->
  Execute tpl rq = Ok out ->
  let wr := fst (ServeHTTP eng newResponseWriter rq) in
  starts_with_space (TrimSpace out) = false /\
  ends_with_space_rev (reverse (TrimSpace out)) = false /\
  (Method rq = "HEAD" -> header wr !! "Location" = Some [TrimSpace out]) /\
  (Method rq <> "HEAD" ->
   exists final,
     HasPrefix final (TrimSpace out) = true /\
     header wr !! "Location"
     = Some [hexEscapeNonASCII (redirectURL (URLPath rq) final)]).
Proof.
  intros Hl He. cbv zeta. destruct (TrimSpace_done out) as [Hh Ht].
  split; [exact Hh|]. split; [exact Ht|].
  rewrite (ServeHTTP_rendered _ _ _ _ _ Hl He). split.
  - intros ->. reflexivity.
  - intros Hm. apply String.eqb_neq in Hm as ->. simpl.
    exists (policy_url eng rq (TrimSpace out)).
    split; [apply decorated_prefix|].
    rewrite Redirect_hands_on. apply Redirect_Location_set.
Qed.

(** X18 -- From the storage to the redirect: once a reload has succeeded,
    a request whose service key is the key of a stored rule is answered
    from the last stored rule with that key; when its template renders, a
    method other than HEAD is redirected (301) with the [Location] that
    [http.Redirect] makes of the URL the policy makes of the trimmed
    output (that URL itself when the output begins with a scheme and the
    URL is all ASCII), and the sink is told once. *)
Theorem stored_rule_is_served (eng : engine) (rs : list Rule) (rule : Rule)
    (rq : Request) (tpl : Template) (out : string) :
  All (storage eng) = Ok rs -> Forall compiles rs ->
  last_rule rs (service_of rq) = Some rule ->
  Parse (LocationTemplate rule) = Ok tpl ->
  Execute tpl rq = Ok out ->
  Method rq <> "HEAD" ->
  let eng' := fst (Reload eng) in
  let r := ServeHTTP eng' newResponseWriter rq in
  let final := policy_url eng rq (TrimSpace out) in
  status (fst r) = Some StatusMovedPermanently /\
  header (fst r) !! "Location"
  = Some [hexEscapeNonASCII (redirectURL (URLPath rq) final)] /\
  (has_scheme (TrimSpace out) = true -> is_ascii final = true ->
   header (fst r) !! "Location" = Some [final]) /\
  snd r = [CallTouch (URL rule); CallExecute (URL rule)].
Proof.
  intros Hall Hc Hl Hp He Hm. cbv zeta.
  destruct (Reload_installs eng rs rule _ Hall Hc Hl) as (t & Hp' & Hk).
  assert (t = tpl) as -> by congruence.
  destruct (last_rule_In rs _ rule Hl) as [_ Hkey].
  rewrite (ServeHTTP_rendered _ _ _ _ _ Hk He).
  apply String.eqb_neq in Hm as ->. simpl.
  destruct (Reload_config eng) as (_ & Hq & Hr & _).
  assert (policy_url (fst (Reload eng)) rq (TrimSpace out)
          = policy_url eng rq (TrimSpace out)) as Hfinal.
  { unfold policy_url, IsRegularUser, ProcessRegularUserUrl. now rewrite Hq, Hr. }
  assert (header (Redirect (fst (Reload eng)) (TrimSpace out) newResponseWriter rq)
            !! "Location"
          = Some [hexEscapeNonASCII
                    (redirectURL (URLPath rq) (policy_url eng rq (TrimSpace out)))])
    as Hloc.
  { rewrite Redirect_hands_on, Redirect_Location_set. now rewrite Hfinal. }
  split; [now apply Redirect_status_301|]. split; [exact Hloc|].
  split; [|now rewrite Hkey].
  intros Hs Ha. rewrite Hloc. do 2 f_equal.
  apply absolute_ascii_unchanged; [now apply has_scheme_policy|exact Ha].
Qed.

Lemma Contains_empty (robot : string) :
  Contains EmptyString robot = true -> robot = EmptyString.
Proof. destruct robot; [reflexivity|discriminate]. Qed.

(** X19 -- A request without a [User-Agent] header is a regular client for
    every robots configuration: the empty user-agent contains no robot
    substring, since the empty substrings are skipped. *)
Theorem no_user_agent_is_regular (eng : engine) (rq : Request) :
  ReqHeader rq !! "User-Agent" = None ->
  IsRegularUser eng rq = true.
Proof.
  intros Hua. unfold IsRegularUser, UserAgent, header_Get. rewrite Hua.
  rewrite (ToLower_ascii EmptyString eq_refl). simpl.
  apply no_robot_in_true_iff. intros robot _ Hne.
  destruct (Contains EmptyString robot) eqn:Hc; [|reflexivity].
  apply Contains_empty in Hc. congruence.
Qed.

End EndToEnd.

(** ** The further properties on concrete requests *)
Section Runs3.

Import Sample GoStrings.

Lemma R1_compiles : Forall compiles R1.
Proof. repeat constructor; eexists; reflexivity. Qed.

Lemma R1_keys_distinct : List.NoDup (map URL R1).
Proof.
  repeat constructor; simpl; intuition discriminate.
Qed.

Lemma touch_only_table_keys_witness :
  is_Some (rules plain !! "svc") /\ ~ slash_ended "svc".
Proof.
  destruct (touch_only_table_keys plain newResponseWriter
              (request "GET" "/svc/" "Mozilla/5.0") "svc") as (_ & Hk & Hs).
  - left. vm_compute. auto.
  - split; [exact Hk|exact Hs].
Defined.

Lemma reload_replaces_keys_witness :
  is_Some (rules (fst (Reload (boot EmptyString "bot|crawler"))) !! "google").
Proof.
  apply (proj2 (reload_replaces_keys (boot EmptyString "bot|crawler") R1 "google"
                  eq_refl R1_compiles)).
  exists {| URL := "google"; LocationTemplate := "http://google.com" |}.
  split; [simpl; auto|reflexivity].
Defined.

Lemma reload_reports_first_failure_witness :
  exists pre rule post err,
    R2 = (pre ++ rule :: post)%list /\ Forall compiles pre /\
    Parse (LocationTemplate rule) = Err err /\
    Reload restocked
    = (restocked,
       Some ("engine: parse rule for url " ++ URL rule ++ ": " ++ err)).
Proof.
  apply (reload_reports_first_failure restocked R2).
  - reflexivity.
  - apply Exists_cons_tl, Exists_cons_hd. eexists. reflexivity.
Defined.

Lemma reload_order_irrelevant_witness :
  rules (fst (Reload (boot EmptyString "bot|crawler")))
  = rules (fst (Reload shuffled)).
Proof.
  destruct (reload_order_irrelevant (boot EmptyString "bot|crawler") shuffled
              R1 (rev R1)) as (_ & _ & H).
  - reflexivity.
  - reflexivity.
  - apply Permutation_rev.
  - exact R1_keys_distinct.
  - exact R1_compiles.
  - exact H.
Defined.

Lemma robot_found_in_any_case_witness :
  IsRegularUser plain (request "GET" "/svc" "Some-CRAWLER/1.0") = false.
Proof.
  apply (robot_found_in_any_case plain (request "GET" "/svc" "Some-CRAWLER/1.0")
           "CRAWLER").
  - discriminate.
  - vm_compute. reflexivity.
  - vm_compute. auto.
  - vm_compute. reflexivity.
Defined.

Lemma robots_as_a_set_witness :
  IsRegularUser plain (request "GET" "/svc" "Some-Crawler/1.0")
  = IsRegularUser sloppy (request "GET" "/svc" "Some-Crawler/1.0").
Proof.
  apply (robots_as_a_set plain sloppy).
  intros robot Hne.
  replace (robots plain) with ["bot"; "crawler"] by (vm_compute; reflexivity).
  replace (robots sloppy) with ["crawler"; EmptyString; "bot"; EmptyString]
    by (vm_compute; reflexivity).
  simpl. intuition congruence.
Defined.

Lemma rendered_url_is_trimmed_witness :
  header (fetch plain "HEAD" "/svc" "Mozilla/5.0") !! "Location"
  = Some ["http://t.com"].
Proof.
  destruct (rendered_url_is_trimmed plain (request "HEAD" "/svc" "Mozilla/5.0")
              (Lit " http://t.com ") " http://t.com ") as (_ & _ & H & _).
  - vm_compute. reflexivity.
  - reflexivity.
  - exact (H eq_refl).
Defined.

Lemma stored_rule_is_served_witness :
  status (fetch plain "GET" "/svc" "Mozilla/5.0") = Some StatusMovedPermanently
  /\ header (fetch plain "GET" "/svc" "Mozilla/5.0") !! "Location"
     = Some ["http://t.com?ref=x"].
Proof.
  destruct (stored_rule_is_served (boot EmptyString "bot|crawler") R1
              {| URL := "svc"; LocationTemplate := " http://t.com " |}
              (request "GET" "/svc" "Mozilla/5.0")
              (Lit " http://t.com ") " http://t.com ") as (Hs & _ & Hl & _).
  - reflexivity.
  - exact R1_compiles.
  - vm_compute. reflexivity.
  - reflexivity.
  - reflexivity.
  - discriminate.
  - split; [exact Hs|].
    etransitivity; [apply Hl; vm_compute; reflexivity|].
    vm_compute. reflexivity.
Defined.

Lemma no_user_agent_is_regular_witness : IsRegularUser plain anonymous = true.
Proof. apply (no_user_agent_is_regular plain anonymous). reflexivity. Defined.

End Runs3.
